(** * Real-time notification subsystem of the performance-tracker frontend

    Shallow embedding of
    - [context/NotificationContext.jsx]  (the [NotificationProvider]: the
      notification list, the unread counter, the SSE handle), and
    - [services/notificationService.js]   (REST wrappers and
      [subscribeToStream]).

    React state, the [useRef] cell, [localStorage], the console and the
    toast queue are the fields of one record [World]; every function of
    the provider is a computation in a small state-and-exception monad
    over it.  Backend answers are arguments of the operations that await
    them. *)

From Stdlib Require Import Ascii String.
From stdpp Require Import base tactics option list strings numbers pretty.

Set Warnings "-register-all".

Local Open Scope Z_scope.
Local Open Scope string_scope.

(** ** Data model *)

(** A notification as the code reads it: [notificationId], [status],
    [priority], [actionRequired] and [message] in the provider, [type] and
    [createdDate] in the page.  [status] and [priority] are strings in the
    source (['UNREAD'], ['READ'], ['HIGH'], ...), so they stay strings. *)
Record Notification := mkNotification {
  notificationId : Z;
  message : string;
  type : string;
  status : string;
  priority : string;
  actionRequired : bool;
  createdDate : string;
}.

(** [{ ...n, status: s }] *)
Definition with_status (n : Notification) (s : string) : Notification :=
  {| notificationId := notificationId n;
     message := message n;
     type := type n;
     status := s;
     priority := priority n;
     actionRequired := actionRequired n;
     createdDate := createdDate n |}.

(** Values that are thrown and caught. *)
Inductive js_error :=
  | HttpError (code : Z)            (* axios rejection with a response *)
  | NetworkError                    (* axios rejection without one *)
  | SyntaxError (msg : string)      (* JSON.parse *)
  | ReferenceError (msg : string)   (* EventSource missing on the platform *)
  | StreamError.                    (* the Event handed to onerror *)

Inductive log_level := LevelError | LevelWarn.

(** One [console.error(text, err)] or [console.warn(text, err)] call. *)
Record log_entry := mkLog {
  log_level_of : log_level;
  log_text : string;
  log_err : js_error;
}.

(** One call of react-hot-toast. *)
Inductive toast :=
  | ToastError (msg : string)       (* toast.error(msg) *)
  | ToastSuccess (msg : string)     (* toast.success(msg) *)
  | ToastBell (msg : string).       (* toast(msg, { icon: bell }) *)

(** An [EventSource] object: the URL it was opened on and whether
    [close()] has been called on it. *)
Record EventSource := mkEventSource {
  url : string;
  closed : bool;
}.

(** Everything the provider reads or writes.  [sources] lists every
    [EventSource] constructed so far; a handle is an index into it. *)
Record World := mkWorld {
  notifications : list Notification;   (* useState([]) *)
  unreadCount : Z;                     (* useState(0) *)
  loading : bool;                      (* useState(false) *)
  eventSourceRef : option nat;         (* useRef(null).current *)
  sources : list EventSource;
  token : option string;               (* localStorage.getItem('token') *)
  sseAvailable : bool;                 (* does [new EventSource(url)] succeed *)
  console : list log_entry;
  toasts : list toast;
}.

(** The state of a freshly mounted provider. *)
Definition initial_world : World :=
  {| notifications := [];
     unreadCount := 0;
     loading := false;
     eventSourceRef := None;
     sources := [];
     token := None;
     sseAvailable := true;
     console := [];
     toasts := [] |}.

(** ** State and exception monad *)

Inductive result (A : Type) :=
  | Ok (a : A)
  | Throw (e : js_error).
Arguments Ok {A} a.
Arguments Throw {A} e.

(** A computation may change the world and then either return or throw;
    what it changed before throwing stays changed. *)
Definition M (A : Type) : Type := World → result A * World.

#[global] Instance M_ret : MRet M := λ A a w, (Ok a, w).

#[global] Instance M_bind : MBind M := λ A B f m w,
  match m w with
  | (Ok a, w') => f a w'
  | (Throw e, w') => (Throw e, w')
  end.

Definition throw {A} (e : js_error) : M A := λ w, (Throw e, w).

(** [try { body } catch (e) { handler e }] *)
Definition try_catch {A} (body : M A) (handler : js_error → M A) : M A :=
  λ w, match body w with
       | (Ok a, w') => (Ok a, w')
       | (Throw e, w') => handler e w'
       end.

(** [try { body } finally { fin }] *)
Definition try_finally {A} (body : M A) (fin : M unit) : M A :=
  λ w, match body w with
       | (r, w') =>
           match fin w' with
           | (Ok _, w'') => (r, w'')
           | (Throw e, w'') => (Throw e, w'')
           end
       end.

(** The world a computation leaves behind, and how it ended. *)
Definition exec {A} (m : M A) (w : World) : World := (m w).2.
Definition outcome {A} (m : M A) (w : World) : result A := (m w).1.

(** *** Primitive effects *)

Definition setNotifications (f : list Notification → list Notification) : M unit :=
  λ w, (Ok (),
        {| notifications := f (notifications w);
           unreadCount := unreadCount w;
           loading := loading w;
           eventSourceRef := eventSourceRef w;
           sources := sources w;
           token := token w;
           sseAvailable := sseAvailable w;
           console := console w;
           toasts := toasts w |}).

Definition setUnreadCount (f : Z → Z) : M unit :=
  λ w, (Ok (),
        {| notifications := notifications w;
           unreadCount := f (unreadCount w);
           loading := loading w;
           eventSourceRef := eventSourceRef w;
           sources := sources w;
           token := token w;
           sseAvailable := sseAvailable w;
           console := console w;
           toasts := toasts w |}).

Definition setLoading (b : bool) : M unit :=
  λ w, (Ok (),
        {| notifications := notifications w;
           unreadCount := unreadCount w;
           loading := b;
           eventSourceRef := eventSourceRef w;
           sources := sources w;
           token := token w;
           sseAvailable := sseAvailable w;
           console := console w;
           toasts := toasts w |}).

Definition set_eventSourceRef (r : option nat) : M unit :=
  λ w, (Ok (),
        {| notifications := notifications w;
           unreadCount := unreadCount w;
           loading := loading w;
           eventSourceRef := r;
           sources := sources w;
           token := token w;
           sseAvailable := sseAvailable w;
           console := console w;
           toasts := toasts w |}).

Definition set_sources (f : list EventSource → list EventSource) : M unit :=
  λ w, (Ok (),
        {| notifications := notifications w;
           unreadCount := unreadCount w;
           loading := loading w;
           eventSourceRef := eventSourceRef w;
           sources := f (sources w);
           token := token w;
           sseAvailable := sseAvailable w;
           console := console w;
           toasts := toasts w |}).

Definition console_log (l : log_level) (text : string) (e : js_error) : M unit :=
  λ w, (Ok (),
        {| notifications := notifications w;
           unreadCount := unreadCount w;
           loading := loading w;
           eventSourceRef := eventSourceRef w;
           sources := sources w;
           token := token w;
           sseAvailable := sseAvailable w;
           console := console w ++ [mkLog l text e];
           toasts := toasts w |}).

Definition console_error := console_log LevelError.
Definition console_warn := console_log LevelWarn.

Definition show_toast (t : toast) : M unit :=
  λ w, (Ok (),
        {| notifications := notifications w;
           unreadCount := unreadCount w;
           loading := loading w;
           eventSourceRef := eventSourceRef w;
           sources := sources w;
           token := token w;
           sseAvailable := sseAvailable w;
           console := console w;
           toasts := toasts w ++ [t] |}).

Definition get_eventSourceRef : M (option nat) := λ w, (Ok (eventSourceRef w), w).

(** [localStorage.getItem('token')] *)
Definition localStorage_getItem_token : M (option string) := λ w, (Ok (token w), w).

(** The settled promise of a backend call. *)
Inductive response (A : Type) :=
  | Fulfilled (data : A)
  | Rejected (e : js_error).
Arguments Fulfilled {A} data.
Arguments Rejected {A} e.

(** [localStorage.setItem('token', t)] and [localStorage.removeItem('token')] *)
Definition set_token (t : option string) : M unit :=
  λ w, (Ok (),
        {| notifications := notifications w;
           unreadCount := unreadCount w;
           loading := loading w;
           eventSourceRef := eventSourceRef w;
           sources := sources w;
           token := t;
           sseAvailable := sseAvailable w;
           console := console w;
           toasts := toasts w |}).

(** ** api.js *)

Module api.

(** [error.response?.status === 401] *)
Definition unauthorized (e : js_error) : bool :=
  match e with
  | HttpError code => bool_decide (code = 401)
  | _ => false
  end.

(** A request through the axios instance, awaited.  The response
    interceptor removes the stored token on a 401 before the rejection
    reaches the caller (it also sends the browser to the login page,
    which is outside this model). *)
Definition request {A} (backend : response A) : M A :=
  match backend with
  | Fulfilled data => mret data
  | Rejected e =>
      (if unauthorized e then set_token None else mret ());;
      throw e
  end.

End api.

(** ** notificationService.js *)

(** What [GET /notifications] answers with, as [loadNotifications] takes
    it apart: the paginated object [{ content: [...], totalElements, ... }],
    a bare array, or nothing ([null] / [undefined]).  The elements are
    notification records; answers of any other shape are not modelled. *)
Inductive PageData :=
  | PageObject (content : list Notification)
  | BareArray (items : list Notification)
  | NoData.

(** A JSON value, the result of [JSON.parse]; a number is kept as the
    decimal [mantissa * 10 ^ exponent] that was written. *)
Inductive value :=
  | VNull
  | VBool (b : bool)
  | VNum (mantissa exponent : Z)
  | VStr (s : string)
  | VArr (items : list value)
  | VObj (members : list (string * value)).

(** [`${token}`] *)
Definition token_text (t : option string) : string :=
  match t with
  | Some s => s
  | None => "null"
  end.

Module notificationService.

(** [getNotifications(page, size)]: [response.data] of the GET. *)
Definition getNotifications (backend : response PageData) (page size : Z) : M PageData :=
  api.request backend.

(** [markAsRead(notifId)]: [response.data] of the PUT. *)
Definition markAsRead (backend : response unit) (notifId : Z) : M unit :=
  api.request backend.

(** [markAllAsRead()]: [response.data] of the PUT. *)
Definition markAllAsRead (backend : response unit) : M unit :=
  api.request backend.

(** [new EventSource(url)]: the new object gets the next handle. *)
Definition new_EventSource (u : string) : M nat :=
  λ w, if sseAvailable w
       then (Ok (length (sources w)),
             {| notifications := notifications w;
                unreadCount := unreadCount w;
                loading := loading w;
                eventSourceRef := eventSourceRef w;
                sources := sources w ++ [mkEventSource u false];
                token := token w;
                sseAvailable := sseAvailable w;
                console := console w;
                toasts := toasts w |})
       else (Throw (ReferenceError "EventSource is not defined"), w).

(** [eventSource.close()] *)
Definition close (h : nat) : M unit :=
  set_sources (alter (λ es, mkEventSource (url es) true) h).

(** [subscribeToStream(onMessage, onError)] up to its [return]: the token
    goes into the URL, the connection is opened and handed back.  The two
    handlers it installs are [eventSource_onmessage] and
    [eventSource_onerror] below. *)
Definition subscribeToStream : M nat :=
  tok ← localStorage_getItem_token;
  let url := "/api/v1/notifications/stream?token=" +:+ token_text tok in
  new_EventSource url.

Section Handlers.

(** [JSON.parse] belongs to the platform: [None] stands for the
    [SyntaxError] it throws. *)
Variable JSON_parse : string → option value.

Definition JSON_parse_or_throw (data : string) : M value :=
  match JSON_parse data with
  | Some v => mret v
  | None => throw (SyntaxError "Unexpected token in JSON")
  end.

(** [eventSource.onmessage = (event) => { try { ... } catch (err) { ... } }] *)
Definition eventSource_onmessage (onMessage : value → M unit) (data : string) : M unit :=
  try_catch
    (notification ← JSON_parse_or_throw data;
     onMessage notification)
    (λ err, console_error "Failed to parse SSE notification:" err).

(** [eventSource.onerror = (err) => { ...; if (onError) onError(err) }] *)
Definition eventSource_onerror (onError : option (js_error → M unit)) (err : js_error) : M unit :=
  console_error "SSE connection error:" err;;
  match onError with
  | Some f => f err
  | None => mret ()
  end.

End Handlers.

End notificationService.

(** ** NotificationContext.jsx: the provider *)

(** [!token] *)
Definition token_falsy (t : option string) : bool :=
  match t with
  | None => true
  | Some s => bool_decide (s = "")
  end.

(** [data?.content || data || []] *)
Definition notifList_of (data : PageData) : list Notification :=
  match data with
  | PageObject content => content
  | BareArray items => items
  | NoData => []
  end.

(** [notifList.filter((n) => n.status === 'UNREAD')] *)
Definition unread (l : list Notification) : list Notification :=
  filter (λ n, status n = "UNREAD") l.

Definition loadNotifications (backend : response PageData) : M unit :=
  try_finally
    (try_catch
       (setLoading true;;
        data ← notificationService.getNotifications backend 0 50;
        let notifList := notifList_of data in
        setNotifications (λ _, notifList);;
        setUnreadCount (λ _, Z.of_nat (length (unread notifList))))
       (λ error, console_error "Failed to load notifications:" error))
    (setLoading false).

Definition stopSSEStream : M unit :=
  r ← get_eventSourceRef;
  match r with
  | Some h => notificationService.close h;; set_eventSourceRef None
  | None => mret ()
  end.

(** The first callback handed to [subscribeToStream]. *)
Definition onNewNotification (newNotification : Notification) : M unit :=
  setNotifications (λ prev, newNotification :: prev);;
  setUnreadCount (λ prev, prev + 1);;
  if bool_decide (priority newNotification = "HIGH") || actionRequired newNotification
  then show_toast (ToastBell (message newNotification))
  else mret ().

(** The second callback handed to [subscribeToStream]. *)
Definition onStreamError (err : js_error) : M unit :=
  console_warn "SSE error, will retry..." err.

Definition startSSEStream : M unit :=
  stopSSEStream;;
  tok ← localStorage_getItem_token;
  if token_falsy tok then mret ()
  else
    try_catch
      (h ← notificationService.subscribeToStream;
       set_eventSourceRef (Some h))
      (λ err, console_error "Failed to start SSE stream:" err).

Definition markAsRead (backend : response unit) (notifId : Z) : M unit :=
  try_catch
    (notificationService.markAsRead backend notifId;;
     setNotifications (λ prev,
       (λ n, if bool_decide (notificationId n = notifId)
             then with_status n "READ" else n) <$> prev);;
     setUnreadCount (λ prev, Z.max 0 (prev - 1)))
    (λ error, show_toast (ToastError "Failed to mark notification as read")).

Definition markAllAsRead (backend : response unit) : M unit :=
  try_catch
    (notificationService.markAllAsRead backend;;
     setNotifications (λ prev, (λ n, with_status n "READ") <$> prev);;
     setUnreadCount (λ _, 0);;
     show_toast (ToastSuccess "All notifications marked as read"))
    (λ error, show_toast (ToastError "Failed to mark all as read")).

(** ** The platform's [JSON.parse]

    A recursive-descent reader of the JSON grammar (ECMA-404): white space,
    the three literals, numbers with fraction and exponent, strings with
    their escapes, arrays and objects.  It is what the handlers of
    [notificationService] are run with on concrete payloads; the theorems
    about the handlers hold for any parser. *)
Module JSON.

Local Open Scope Z_scope.

Definition is_ws (c : ascii) : bool :=
  match c with
  | " " | "009" | "010" | "013" => true
  | _ => false
  end%char.

Definition digit_val (c : ascii) : option Z :=
  let n := Z.of_N (N_of_ascii c) in
  if (48 <=? n) && (n <=? 57) then Some (n - 48) else None.

Definition hex_val (c : ascii) : option Z :=
  let n := Z.of_N (N_of_ascii c) in
  if (48 <=? n) && (n <=? 57) then Some (n - 48)
  else if (65 <=? n) && (n <=? 70) then Some (n - 55)
  else if (97 <=? n) && (n <=? 102) then Some (n - 87)
  else None.

Definition byte (n : Z) : ascii := ascii_of_N (Z.to_N n).

(** A [\uXXXX] code unit, written out as UTF-8 bytes. *)
Definition code_unit (n : Z) : list ascii :=
  if n <? 128 then [byte n]
  else if n <? 2048 then [byte (192 + n / 64); byte (128 + n mod 64)]
  else [byte (224 + n / 4096); byte (128 + (n / 64) mod 64); byte (128 + n mod 64)].

Fixpoint skip_ws (s : string) : string :=
  match s with
  | String c r => if is_ws c then skip_ws r else s
  | EmptyString => s
  end.

(** Reads a run of digits onto [acc]; also counts them. *)
Fixpoint digits (s : string) (acc n : Z) : Z * Z * string :=
  match s with
  | String c r =>
      match digit_val c with
      | Some d => digits r (10 * acc + d) (n + 1)
      | None => (acc, n, s)
      end
  | EmptyString => (acc, n, s)
  end.

Definition sign (s : string) (plus : bool) : bool * string :=
  match s with
  | String "-"%char r => (true, r)
  | String "+"%char r => if plus then (false, r) else (false, s)
  | _ => (false, s)
  end.

Definition fraction (s : string) (int_part : Z) : option (Z * Z * string) :=
  match s with
  | String "."%char r =>
      let '(m, n, rest) := digits r int_part 0 in
      if n =? 0 then None else Some (m, n, rest)
  | _ => Some (int_part, 0, s)
  end.

Definition exponent (s : string) : option (Z * string) :=
  match s with
  | String c r =>
      if Ascii.eqb c "e" || Ascii.eqb c "E" then
        let '(neg, r') := sign r true in
        let '(e, n, rest) := digits r' 0 0 in
        if n =? 0 then None else Some (if neg then - e else e, rest)
      else Some (0, s)
  | EmptyString => Some (0, s)
  end.

Definition number (s : string) : option (value * string) :=
  let '(neg, s1) := sign s false in
  match s1 with
  | String c r =>
      match digit_val c with
      | Some d =>
          let '(int_part, _, s2) := if d =? 0 then (0, 1, r) else digits r d 1 in
          '(m, fn, s3) ← fraction s2 int_part;
          '(e, s4) ← exponent s3;
          Some (VNum (if neg then - m else m) (e - fn), s4)
      | None => None
      end
  | EmptyString => None
  end.

Definition escape (c : ascii) : option ascii :=
  match c with
  | "034" => Some "034"
  | "\" => Some "\"
  | "/" => Some "/"
  | "b" => Some "008"
  | "f" => Some "012"
  | "n" => Some "010"
  | "r" => Some "013"
  | "t" => Some "009"
  | _ => None
  end%char.

Definition hex4 (a b c d : ascii) : option Z :=
  x ← hex_val a; y ← hex_val b; z ← hex_val c; t ← hex_val d;
  Some (((x * 16 + y) * 16 + z) * 16 + t).

(** The characters of a string after its opening quote; [acc] holds the
    ones read so far, last first. *)
Fixpoint string_body (s : string) (acc : list ascii) : option (string * string) :=
  match s with
  | EmptyString => None
  | String c r =>
      if Ascii.eqb c "034" then Some (string_of_list_ascii (rev acc), r)
      else if Ascii.eqb c "\" then
        match r with
        | String "u"%char (String h1 (String h2 (String h3 (String h4 r')))) =>
            match hex4 h1 h2 h3 h4 with
            | Some n => string_body r' (rev (code_unit n) ++ acc)
            | None => None
            end
        | String e r' =>
            match escape e with
            | Some x => string_body r' (x :: acc)
            | None => None
            end
        | EmptyString => None
        end
      else if (N_of_ascii c <? 32)%N then None
      else string_body r (c :: acc)
  end.

Fixpoint parse_value (fuel : nat) (s : string) : option (value * string) :=
  match fuel with
  | O => None
  | S fuel =>
      match skip_ws s with
      | String "n" (String "u" (String "l" (String "l" r))) => Some (VNull, r)
      | String "t" (String "r" (String "u" (String "e" r))) => Some (VBool true, r)
      | String "f" (String "a" (String "l" (String "s" (String "e" r)))) =>
          Some (VBool false, r)
      | String "034" r => '(str, r') ← string_body r []; Some (VStr str, r')
      | String "[" r =>
          match skip_ws r with
          | String "]" r' => Some (VArr [], r')
          | _ => parse_elements fuel r []
          end
      | String "{" r =>
          match skip_ws r with
          | String "}" r' => Some (VObj [], r')
          | _ => parse_members fuel r []
          end
      | s' => number s'
      end%char
  end
with parse_elements (fuel : nat) (s : string) (acc : list value) : option (value * string) :=
  match fuel with
  | O => None
  | S fuel =>
      '(v, r) ← parse_value fuel s;
      match skip_ws r with
      | String "," r' => parse_elements fuel r' (v :: acc)
      | String "]" r' => Some (VArr (rev (v :: acc)), r')
      | _ => None
      end%char
  end
with parse_members (fuel : nat) (s : string) (acc : list (string * value)) : option (value * string) :=
  match fuel with
  | O => None
  | S fuel =>
      match skip_ws s with
      | String "034" r =>
          '(key, r1) ← string_body r [];
          match skip_ws r1 with
          | String ":" r2 =>
              '(v, r3) ← parse_value fuel r2;
              match skip_ws r3 with
              | String "," r' => parse_members fuel r' ((key, v) :: acc)
              | String "}" r' => Some (VObj (rev ((key, v) :: acc)), r')
              | _ => None
              end
          | _ => None
          end
      | _ => None
      end%char
  end.

(** [JSON.parse(text)]; [None] is the [SyntaxError]. *)
Definition parse (text : string) : option value :=
  '(v, rest) ← parse_value (2 * String.length text + 2) text;
  match skip_ws rest with
  | EmptyString => Some v
  | _ => None
  end.

End JSON.

(** The double quote, for writing JSON texts. *)
Definition dq : string := String "034" EmptyString.

(** ** Vocabulary of the properties *)

(** The unread counter agrees with the collection. *)
Definition consistent (w : World) : Prop :=
  unreadCount w = Z.of_nat (length (unread (notifications w))).

(** The Store operations of a session: a streamed record arrives, one
    record is confirmed read, all records are confirmed read. *)
Inductive store_op :=
  | Ingest (record : Notification)
  | MarkRead (id : Z)
  | MarkAllRead.

Definition store_step (op : store_op) : M unit :=
  match op with
  | Ingest record => onNewNotification record
  | MarkRead id => markAsRead (Fulfilled ()) id
  | MarkAllRead => markAllAsRead (Fulfilled ())
  end.

Definition run_store (ops : list store_op) (w : World) : World :=
  foldl (λ w op, exec (store_step op) w) w ops.

(** The unread records that carry identifier [id]. *)
Definition unread_with_id (id : Z) (l : list Notification) : list Notification :=
  filter (λ n, notificationId n = id) (unread l).

(** The operations on which the counter arithmetic of the provider is
    exact: a streamed record that is UNREAD, and a confirmation for an
    identifier carried by exactly one UNREAD record. *)
Definition op_expected (w : World) (op : store_op) : bool :=
  match op with
  | Ingest record => bool_decide (status record = "UNREAD")
  | MarkRead id => bool_decide (length (unread_with_id id (notifications w)) = 1%nat)
  | MarkAllRead => true
  end.

Fixpoint all_expected (w : World) (ops : list store_op) : bool :=
  match ops with
  | [] => true
  | op :: rest => op_expected w op && all_expected (exec (store_step op) w) rest
  end.

(** A failure reaches whoever started the operation: the promise is
    rejected, or an error toast is put on screen. *)
Definition error_toast (t : toast) : bool :=
  match t with
  | ToastError _ => true
  | _ => false
  end.

Definition surfaced {A} (m : M A) (w : World) : bool :=
  match outcome m w with
  | Throw _ => true
  | Ok _ => existsb error_toast (drop (length (toasts w)) (toasts (exec m w)))
  end.

(** The connections that have not been closed. *)
Definition open_sources (w : World) : list EventSource :=
  filter (λ es, closed es = false) (sources w).

(** What the session controller and its environment do to the stream. *)
Inductive stream_op :=
  | Start
  | Stop
  | StoreToken (t : option string).

Definition stream_step (op : stream_op) : M unit :=
  match op with
  | Start => startSSEStream
  | Stop => stopSSEStream
  | StoreToken t => set_token t
  end.

Definition run_stream (ops : list stream_op) (w : World) : World :=
  foldl (λ w op, exec (stream_step op) w) w ops.

(** A provider mounted in a browser with the given stored token. *)
Definition mounted (tok : option string) (sse : bool) : World :=
  {| notifications := [];
     unreadCount := 0;
     loading := false;
     eventSourceRef := None;
     sources := [];
     token := tok;
     sseAvailable := sse;
     console := [];
     toasts := [] |}.

(** Sample records. *)
Definition sample (id : Z) (st : string) : Notification :=
  {| notificationId := id;
     message := "Your goal was approved";
     type := "GOAL_APPROVAL";
     status := st;
     priority := "NORMAL";
     actionRequired := false;
     createdDate := "2024-05-01T10:00:00" |}.

(** The handles of the connections that have not been closed, counted
    from handle [i]. *)
Fixpoint open_from (i : nat) (l : list EventSource) : list nat :=
  match l with
  | [] => []
  | es :: rest => if closed es then open_from (S i) rest else i :: open_from (S i) rest
  end.

Definition open_handles (w : World) : list nat := open_from 0 (sources w).

(** The stored handle is the one open connection, if there is any. *)
Definition handle_owns_stream (w : World) : Prop :=
  open_handles w = option_list (eventSourceRef w).

(** Two records that differ at most in [status]. *)
Definition same_but_status (n n' : Notification) : Prop :=
  notificationId n' = notificationId n
  ∧ message n' = message n
  ∧ type n' = type n
  ∧ priority n' = priority n
  ∧ actionRequired n' = actionRequired n
  ∧ createdDate n' = createdDate n.

(** A session in progress: two records, one unread, a live stream. *)
Definition live_world : World :=
  {| notifications := [sample 7 "UNREAD"; sample 5 "READ"];
     unreadCount := 1;
     loading := false;
     eventSourceRef := Some 0%nat;
     sources := [mkEventSource "/api/v1/notifications/stream?token=jwt" false];
     token := Some "jwt";
     sseAvailable := true;
     console := [];
     toasts := [] |}.

(** The same session after the token was removed from storage. *)
Definition live_world_no_token : World := exec (set_token None) live_world.

(** A fetched page of three records, two of them unread. *)
Definition page3 : list Notification :=
  [sample 1 "UNREAD"; sample 2 "READ"; sample 3 "UNREAD"].

(** The scenario of the specification: two records arrive, the first is
    read, then all are. *)
Definition scenario : list store_op :=
  [Ingest (sample 1 "UNREAD"); Ingest (sample 2 "UNREAD"); MarkRead 1; MarkAllRead].

(** Two unread records arrive and the confirmation for record 1 comes
    back twice, as after a double click on it. *)
Definition double_confirmation : list store_op :=
  [Ingest (sample 2 "UNREAD"); Ingest (sample 1 "UNREAD"); MarkRead 1; MarkRead 1].

(** A callback that leaves a trace of the value it was called with. *)
Definition probe (v : value) : M unit :=
  match v with
  | VObj _ => show_toast (ToastBell "record")
  | _ => show_toast (ToastBell "not a record")
  end.

(** A well-formed payload: [{"notificationId": 5, "status": "UNREAD"}]. *)
Definition payload_record : string :=
  "{" +:+ dq +:+ "notificationId" +:+ dq +:+ ": 5, "
      +:+ dq +:+ "status" +:+ dq +:+ ": " +:+ dq +:+ "UNREAD" +:+ dq +:+ "}".

(** A payload cut off in transit. *)
Definition payload_truncated : string :=
  "{" +:+ dq +:+ "notificationId" +:+ dq +:+ ": 5, ".


(** ** NotificationContext.jsx: the session effect

    [loadNotifications] is an async function that the effect calls without
    awaiting it: it runs up to its [await] ([loadNotifications_start]),
    the effect goes on, and the rest ([loadNotifications_settle]) runs
    when the fetch settles. *)

Definition loadNotifications_start : M unit :=
  setLoading true.

Definition loadNotifications_settle (backend : response PageData) : M unit :=
  try_finally
    (try_catch
       (data ← notificationService.getNotifications backend 0 50;
        let notifList := notifList_of data in
        setNotifications (λ _, notifList);;
        setUnreadCount (λ _, Z.of_nat (length (unread notifList))))
       (λ error, console_error "Failed to load notifications:" error))
    (setLoading false).

(** [!!v] for a JSON value. *)
Definition truthy (v : value) : bool :=
  match v with
  | VNull => false
  | VBool b => b
  | VNum m _ => negb (m =? 0)%Z
  | VStr s => negb (bool_decide (s = ""))
  | VArr _ | VObj _ => true
  end.

(** The body of [useEffect(() => { ... }, [user])], the fetch left
    pending. *)
Definition sessionEffect (user : value) : M unit :=
  if truthy user
  then loadNotifications_start;; startSSEStream
  else stopSSEStream;; setNotifications (λ _, []);; setUnreadCount (λ _, 0).

(** The function the effect returns. *)
Definition sessionCleanup : M unit :=
  stopSSEStream.

(** How the stream error reaches the provider: the [onerror] handler of
    the transport client, given the provider's second callback. *)
Definition stream_error (err : js_error) : M unit :=
  notificationService.eventSource_onerror (Some onStreamError) err.

(** ** NotificationsPage.jsx *)

(** [onClick={() => isUnread && markAsRead(notif.notificationId)}] on the
    row rendered for [notif]. *)
Definition row_onClick (backend : response unit) (notif : Notification) : M unit :=
  if bool_decide (status notif = "UNREAD")
  then markAsRead backend (notificationId notif)
  else mret ().

(** A click on the [i]-th row of the list as it is on screen. *)
Definition click_row (backend : response unit) (i : nat) : M unit :=
  λ w, match notifications w !! i with
       | Some notif => row_onClick backend notif w
       | None => (Ok (), w)
       end.

(** The button [Mark all as read], rendered under [unreadCount > 0]. *)
Definition click_mark_all (backend : response unit) : M unit :=
  λ w, if (0 <? unreadCount w)%Z then markAllAsRead backend w else (Ok (), w).

(** What happens to the page during a session. *)
Inductive page_event :=
  | RowClick (i : nat) (backend : response unit)
  | MarkAllClick (backend : response unit)
  | Arrival (record : Notification).

Definition page_step (ev : page_event) : M unit :=
  match ev with
  | RowClick i backend => click_row backend i
  | MarkAllClick backend => click_mark_all backend
  | Arrival record => onNewNotification record
  end.

Definition run_page (evs : list page_event) (w : World) : World :=
  foldl (λ w ev, exec (page_step ev) w) w evs.

(** The identifiers in the collection. *)
Definition ids (w : World) : list Z := notificationId <$> notifications w.

(** What the page relies on from the backend: a streamed record is UNREAD
    and carries an identifier that is not in the collection yet. *)
Definition arrival_expected (w : World) (ev : page_event) : bool :=
  match ev with
  | Arrival record =>
      bool_decide (status record = "UNREAD")
      && bool_decide (notificationId record ∉ ids w)
  | _ => true
  end.

Fixpoint arrivals_expected (w : World) (evs : list page_event) : bool :=
  match evs with
  | [] => true
  | ev :: rest => arrival_expected w ev && arrivals_expected (exec (page_step ev) w) rest
  end.

(** A page session: a click on the read row, two on the unread one, a new
    record, mark all. *)
Definition page_session : list page_event :=
  [RowClick 1 (Fulfilled ()); RowClick 0 (Fulfilled ()); RowClick 0 (Fulfilled ());
   Arrival (sample 9 "UNREAD"); RowClick 5 (Rejected NetworkError);
   MarkAllClick (Fulfilled ())].

(** ** AuthContext.jsx and authService.js

    The state of the [AuthProvider] and the ['user'] entry of
    [localStorage] join the world of the notification provider, which
    already holds the ['token'] entry, the console and the toasts. *)

Record Session := mkSession {
  user : value;                (* useState(null) *)
  authLoading : bool;          (* useState(true) *)
  savedUser : option string;   (* localStorage.getItem('user') *)
  world : World;
}.

Definition Auth (A : Type) : Type := Session → result A * Session.

#[global] Instance Auth_ret : MRet Auth := λ A a s, (Ok a, s).

#[global] Instance Auth_bind : MBind Auth := λ A B f m s,
  match m s with
  | (Ok a, s') => f a s'
  | (Throw e, s') => (Throw e, s')
  end.

Definition auth_throw {A} (e : js_error) : Auth A := λ s, (Throw e, s).

Definition auth_try_catch {A} (body : Auth A) (handler : js_error → Auth A) : Auth A :=
  λ s, match body s with
       | (Ok a, s') => (Ok a, s')
       | (Throw e, s') => handler e s'
       end.

Definition auth_try_finally {A} (body : Auth A) (fin : Auth unit) : Auth A :=
  λ s, match body s with
       | (r, s') =>
           match fin s' with
           | (Ok _, s'') => (r, s'')
           | (Throw e, s'') => (Throw e, s'')
           end
       end.

Definition auth_exec {A} (m : Auth A) (s : Session) : Session := (m s).2.
Definition auth_outcome {A} (m : Auth A) (s : Session) : result A := (m s).1.

(** A computation of the notification world, run inside the session. *)
Definition in_world {A} (m : M A) : Auth A :=
  λ s, match m (world s) with
       | (r, w') => (r, mkSession (user s) (authLoading s) (savedUser s) w')
       end.

Definition setUser (u : value) : Auth unit :=
  λ s, (Ok (), mkSession u (authLoading s) (savedUser s) (world s)).

Definition setAuthLoading (b : bool) : Auth unit :=
  λ s, (Ok (), mkSession (user s) b (savedUser s) (world s)).

(** [localStorage.setItem('user', u)] and [localStorage.removeItem('user')] *)
Definition set_savedUser (u : option string) : Auth unit :=
  λ s, (Ok (), mkSession (user s) (authLoading s) u (world s)).

Definition localStorage_getItem_user : Auth (option string) :=
  λ s, (Ok (savedUser s), s).

(** A request through the axios instance, with both entries in reach of
    the response interceptor: a 401 removes ['token'] and ['user']. *)
Definition session_request {A} (backend : response A) : Auth A :=
  match backend with
  | Fulfilled data => mret data
  | Rejected e =>
      (if api.unauthorized e
       then in_world (set_token None);; set_savedUser None
       else mret ());;
      auth_throw e
  end.

(** What [POST /auth/login] returns:
    [{ token, userId, name, email, role, department, managerId }]. *)
Record LoginData := mkLoginData {
  login_token : string;
  userId : Z;
  name : string;
  email : string;
  role : string;
  department : option string;
  managerId : option Z;
}.

(** The settled login call; a refusal may carry the server's message,
    [error.response?.data?.msg]. *)
Inductive login_answer :=
  | Accepted (data : LoginData)
  | Refused (e : js_error) (msg : option string).

Definition login_response (answer : login_answer) : response LoginData :=
  match answer with
  | Accepted data => Fulfilled data
  | Refused e _ => Rejected e
  end.

Definition login_refusal_msg (answer : login_answer) : option string :=
  match answer with
  | Accepted _ => None
  | Refused _ msg => msg
  end.

Module authService.

(** [login(email, password)]: [response.data] of the POST. *)
Definition login (backend : response LoginData) (email password : string) : Auth LoginData :=
  session_request backend.

(** [logout()]: the storage is cleared whether the call succeeds or not. *)
Definition logout (backend : response unit) : Auth unit :=
  auth_try_finally
    (session_request backend)
    (in_world (set_token None);; set_savedUser None).

End authService.

(** The object literal [{ userId: data.userId, ..., managerId: data.managerId }]. *)
Definition userData_of (data : LoginData) : value :=
  VObj [("userId", VNum (userId data) 0);
        ("name", VStr (name data));
        ("email", VStr (email data));
        ("role", VStr (role data));
        ("department", from_option VStr VNull (department data));
        ("managerId", from_option (λ id, VNum id 0) VNull (managerId data))].

(** [msg || 'Login failed. Please check your credentials.'] *)
Definition login_message (msg : option string) : string :=
  match msg with
  | Some m => if bool_decide (m = "") then "Login failed. Please check your credentials." else m
  | None => "Login failed. Please check your credentials."
  end.

Section AuthProvider.

(** [JSON.parse] and [JSON.stringify] belong to the platform. *)
Variable JSON_parse : string → option value.
Variable JSON_stringify : value → string.

(** The mount effect: a saved session is taken up again. *)
Definition restoreSession : Auth unit :=
  savedUser ← localStorage_getItem_user;
  savedToken ← in_world localStorage_getItem_token;
  (if negb (token_falsy savedUser) && negb (token_falsy savedToken)
   then
     auth_try_catch
       (u ← in_world (notificationService.JSON_parse_or_throw JSON_parse
                        (token_text savedUser));
        setUser u)
       (λ _, set_savedUser None;; in_world (set_token None))
   else mret ());;
  setAuthLoading false.

Definition login (answer : login_answer) (email password : string) : Auth value :=
  auth_try_catch
    (data ← authService.login (login_response answer) email password;
     let userData := userData_of data in
     in_world (set_token (Some (login_token data)));;
     set_savedUser (Some (JSON_stringify userData));;
     setUser userData;;
     in_world (show_toast (ToastSuccess ("Welcome back, " +:+ name data +:+ "!")));;
     mret userData)
    (λ error,
       let message := login_message (login_refusal_msg answer) in
       in_world (show_toast (ToastError message));;
       auth_throw error).

End AuthProvider.

Definition logout (backend : response unit) : Auth unit :=
  auth_try_finally
    (authService.logout backend)
    (setUser VNull;; in_world (show_toast (ToastSuccess "Logged out successfully"))).

(** The value bound to [k] in a parsed object: the last one written. *)
Definition member (k : string) (ms : list (string * value)) : option value :=
  foldl (λ found m, if bool_decide (m.1 = k) then Some m.2 else found) None ms.

(** [v?.k], for a key that only an object can have ([role], [name], ...);
    [None] is [undefined]. *)
Definition field (k : string) (v : value) : option value :=
  match v with
  | VObj ms => member k ms
  | _ => None
  end.

(** [user?.role === r] *)
Definition role_is (r : string) (u : value) : bool :=
  match field "role" u with
  | Some (VStr s) => bool_decide (s = r)
  | _ => false
  end.

Definition isAdmin (u : value) : bool := role_is "ADMIN" u.
Definition isManager (u : value) : bool := role_is "MANAGER" u.
Definition isEmployee (u : value) : bool := role_is "EMPLOYEE" u.
Definition isAdminOrManager (u : value) : bool := role_is "ADMIN" u || role_is "MANAGER" u.

(** A page load: the React state starts afresh, [localStorage] stays. *)
Definition page_load (s : Session) : Session :=
  {| user := VNull;
     authLoading := true;
     savedUser := savedUser s;
     world := mounted (token (world s)) (sseAvailable (world s)) |}.

(** The session of a browser that has never logged in. *)
Definition initial_session : Session :=
  {| user := VNull; authLoading := true; savedUser := None; world := initial_world |}.

(** ** ProtectedRoute.jsx, App.jsx, Sidebar.jsx *)

Inductive element :=
  | Spinner
  | Navigate (to : string)
  | Page (component : string).

(** [roles.includes(user.role)] *)
Definition includes (roles : list string) (x : option value) : bool :=
  match x with
  | Some (VStr s) => bool_decide (s ∈ roles)
  | _ => false
  end.

Definition ProtectedRoute (u : value) (loading : bool) (roles : list string)
    (children : element) : element :=
  if loading then Spinner
  else if negb (truthy u) then Navigate "/login"
  else if (0 <? length roles)%nat && negb (includes roles (field "role" u))
  then Navigate "/dashboard"
  else children.

Definition SmartDashboard (u : value) : element :=
  if isAdmin u then Page "AdminDashboard"
  else if isManager u then Page "ManagerDashboard"
  else Page "EmployeeDashboard".

Definition SmartReviews (u : value) : element :=
  if isManager u then Page "ManagerReviewsPage" else Page "EmployeeReviewsPage".

(** The guarded routes of [App]: path, roles of the guard, what the guard
    wraps. *)
Definition protected_routes (u : value) : list (string * (list string * element)) :=
  [("/dashboard", ([], SmartDashboard u));
   ("/team-goals", (["MANAGER"], Page "TeamGoalsPage"));
   ("/team-members", (["MANAGER"], Page "TeamMembersPage"));
   ("/team-reports", (["MANAGER"], Page "TeamReportsPage"));
   ("/goals", (["EMPLOYEE"; "MANAGER"], Page "EmployeeGoalsPage"));
   ("/feedback", (["EMPLOYEE"], Page "EmployeeFeedbackPage"));
   ("/reviews", ([], SmartReviews u));
   ("/users", (["ADMIN"], Page "AdminUsersPage"));
   ("/review-cycles", (["ADMIN"], Page "AdminReviewCyclesPage"));
   ("/audit-logs", (["ADMIN"], Page "AdminAuditLogsPage"));
   ("/reports", (["ADMIN"], Page "AdminReportsPage"));
   ("/notifications", ([], Page "NotificationsPage"));
   ("/profile", ([], Page "ProfilePage"))].

(** How the router compares a pathname with the path of a route: letters
    match whatever their case, and slashes at the end do not count. *)
Definition lower (c : ascii) : ascii :=
  let n := N_of_ascii c in
  if ((65 <=? n) && (n <=? 90))%N then ascii_of_N (n + 32) else c.

Fixpoint lower_case (s : string) : string :=
  match s with
  | EmptyString => EmptyString
  | String c r => String (lower c) (lower_case r)
  end.

Fixpoint trim_slashes (s : string) : string :=
  match s with
  | EmptyString => EmptyString
  | String c r =>
      match trim_slashes r with
      | EmptyString => if Ascii.eqb c "/" then EmptyString else String c EmptyString
      | r' => String c r'
      end
  end.

Definition route_key (path : string) : string := trim_slashes (lower_case path).

(** [pathname] (decoded, as [location.pathname] after the router has
    decoded it) matches the static route path [p]. *)
Definition matches (p pathname : string) : bool :=
  bool_decide (route_key p = route_key pathname).

(** The first route of a table that matches [pathname]. *)
Fixpoint route_for {A} (pathname : string) (table : list (string * A)) : option A :=
  match table with
  | [] => None
  | (p, r) :: rest => if matches p pathname then Some r else route_for pathname rest
  end.

(** What [App] shows at [pathname]: the login page, the redirect of the
    root, a guarded route, or the redirect of the catch-all route. *)
Definition App (u : value) (loading : bool) (pathname : string) : element :=
  if matches "/login" pathname then Page "LoginPage"
  else if matches "/" pathname then Navigate "/dashboard"
  else match route_for pathname (protected_routes u) with
       | Some (roles, children) => ProtectedRoute u loading roles children
       | None => Navigate "/dashboard"
       end.

Definition MANAGER_NAV : list (string * string) :=
  [("Dashboard", "/dashboard"); ("Team Goals", "/team-goals"); ("Reviews", "/reviews");
   ("Team Members", "/team-members"); ("Team Reports", "/team-reports");
   ("Notifications", "/notifications")].

Definition EMPLOYEE_NAV : list (string * string) :=
  [("Dashboard", "/dashboard"); ("My Goals", "/goals"); ("Reviews", "/reviews");
   ("Feedback", "/feedback"); ("Notifications", "/notifications")].

Definition ADMIN_NAV : list (string * string) :=
  [("Dashboard", "/dashboard"); ("Users", "/users"); ("Review Cycles", "/review-cycles");
   ("Reports", "/reports"); ("Audit Logs", "/audit-logs");
   ("Notifications", "/notifications")].

(** [isAdmin() ? ADMIN_NAV : isManager() ? MANAGER_NAV : EMPLOYEE_NAV] *)
Definition navItems (u : value) : list (string * string) :=
  if isAdmin u then ADMIN_NAV else if isManager u then MANAGER_NAV else EMPLOYEE_NAV.

(** Every [NavLink] of the sidebar: the items of the menu and, at the
    bottom, the link to the profile. *)
Definition sidebar_links (u : value) : list (string * string) :=
  navItems u ++ [("Profile", "/profile")].

(** The pages of [pages/admin] and of [pages/manager]. *)
Definition admin_pages : list string :=
  ["AdminDashboard"; "AdminUsersPage"; "AdminReviewCyclesPage"; "AdminAuditLogsPage";
   "AdminReportsPage"].

Definition manager_pages : list string :=
  ["ManagerDashboard"; "TeamGoalsPage"; "ManagerReviewsPage"; "TeamMembersPage";
   "TeamReportsPage"].

(** Sample logins. *)
Definition alice : LoginData :=
  {| login_token := "jwt";
     userId := 12;
     name := "Alice";
     email := "alice@example.com";
     role := "MANAGER";
     department := Some "R&D";
     managerId := None |}.

(** ** The platform's [JSON.stringify]

    Writes a value as compact JSON text, as [JSON.stringify] does for
    values without [undefined] members: strings with the short escapes and
    [\u00XX] for the other control characters, numbers by their decimal
    digits (followed by the exponent when it is not zero).  Used, like
    [JSON.parse], to run the code on concrete data. *)
Module JSON_write.

Definition hex_digit (n : Z) : ascii :=
  if (n <? 10)%Z then JSON.byte (48 + n) else JSON.byte (87 + n).

Definition escape_char (c : ascii) : string :=
  let n := Z.of_N (N_of_ascii c) in
  if (n =? 34)%Z then "\" +:+ dq
  else if (n =? 92)%Z then "\\"
  else if (n =? 8)%Z then "\b"
  else if (n =? 12)%Z then "\f"
  else if (n =? 10)%Z then "\n"
  else if (n =? 13)%Z then "\r"
  else if (n =? 9)%Z then "\t"
  else if (n <? 32)%Z
       then "\u00" +:+ String (hex_digit (n / 16)) (String (hex_digit (n mod 16)) EmptyString)
  else String c EmptyString.

Fixpoint escape (s : string) : string :=
  match s with
  | EmptyString => EmptyString
  | String c r => escape_char c +:+ escape r
  end.

Definition quote (s : string) : string := dq +:+ escape s +:+ dq.

Fixpoint stringify (v : value) : string :=
  match v with
  | VNull => "null"
  | VBool true => "true"
  | VBool false => "false"
  | VNum m e => if (e =? 0)%Z then pretty m else pretty m +:+ "e" +:+ pretty e
  | VStr s => quote s
  | VArr items =>
      "[" +:+
      (fix elements (l : list value) : string :=
         match l with
         | [] => ""
         | x :: rest =>
             stringify x +:+ match rest with [] => "" | _ => "," +:+ elements rest end
         end) items
      +:+ "]"
  | VObj members =>
      "{" +:+
      (fix pairs (l : list (string * value)) : string :=
         match l with
         | [] => ""
         | (k, x) :: rest =>
             quote k +:+ ":" +:+ stringify x
             +:+ match rest with [] => "" | _ => "," +:+ pairs rest end
         end) members
      +:+ "}"
  end.

End JSON_write.

(** ** Pagination.jsx *)

(** The page that the [i]-th numbered button stands for. *)
Definition button_page (currentPage totalPages i : Z) : Z :=
  if (totalPages >? 5)%Z then
    if (currentPage <? 3)%Z then i
    else if (currentPage >? totalPages - 3)%Z then totalPages - 5 + i
    else currentPage - 2 + i
  else i.

(** What the control shows: the two arrows, disabled or not, and the
    pages of the numbered buttons. *)
Record PaginationView := mkPaginationView {
  prev_disabled : bool;
  buttons : list Z;
  next_disabled : bool;
}.

(** [null] for a single page, the control otherwise. *)
Definition Pagination (currentPage totalPages : Z) : option PaginationView :=
  if (totalPages <=? 1)%Z then None
  else Some {| prev_disabled := (currentPage =? 0)%Z;
               buttons := button_page currentPage totalPages
                            <$> seqZ 0 (Z.min totalPages 5);
               next_disabled := (currentPage >=? totalPages - 1)%Z |}.

(** The pages [onPageChange] can be called with from a view: the page
    before, the numbered ones, the page after. *)
Definition requests (currentPage : Z) (v : PaginationView) : list Z :=
  (if prev_disabled v then [] else [currentPage - 1])
  ++ buttons v
  ++ (if next_disabled v then [] else [currentPage + 1]).

(** ** The notification session as a whole *)

(** Everything that happens to the provider between mount and unmount:
    the user changes (the effect's cleanup runs, then the effect), a
    pending fetch settles, the page is used or a record arrives, the
    stream reports an error, the stored token changes. *)
Inductive session_event :=
  | UserChanged (u : value)
  | FetchSettled (backend : response PageData)
  | PageEvent (ev : page_event)
  | StreamFailed (err : js_error)
  | TokenStored (t : option string).

Definition session_step (ev : session_event) : M unit :=
  match ev with
  | UserChanged u => sessionCleanup;; sessionEffect u
  | FetchSettled backend => loadNotifications_settle backend
  | PageEvent ev => page_step ev
  | StreamFailed err => stream_error err
  | TokenStored t => set_token t
  end.

Definition run_session (evs : list session_event) (w : World) : World :=
  foldl (λ w ev, exec (session_step ev) w) w evs.

(** * Properties *)

(** ** Unfolding the monad *)

Ltac run_monad :=
  unfold exec, outcome, surfaced, store_step, stream_step,
    markAsRead, markAllAsRead, loadNotifications, onNewNotification,
    startSSEStream, stopSSEStream, onStreamError,
    notificationService.markAsRead, notificationService.markAllAsRead,
    notificationService.getNotifications, notificationService.subscribeToStream,
    notificationService.close, notificationService.new_EventSource,
    api.request, try_catch, try_finally, throw, console_error, console_warn,
    console_log, show_toast, setNotifications, setUnreadCount, setLoading,
    set_eventSourceRef, set_sources, set_token, get_eventSourceRef,
    localStorage_getItem_token, mbind, M_bind, mret, M_ret in *;
  simpl in *.

(** ** Ingest *)

(** C6: the stream callback puts the incoming record at the head of the
    collection, leaves the records that were there in place behind it, and
    adds exactly one to the unread counter, whatever the record's status
    and whether or not its identifier is already in the collection. *)
Theorem onNewNotification_prepends (w : World) (record : Notification) :
  let w' := exec (onNewNotification record) w in
  outcome (onNewNotification record) w = Ok ()
  ∧ notifications w' = record :: notifications w
  ∧ (∀ i, notifications w' !! S i = notifications w !! i)
  ∧ unreadCount w' = unreadCount w + 1.
Proof.
  run_monad. destruct (bool_decide _ || _); simpl; auto.
Qed.

(** ** Counting unread records *)

Lemma unread_cons (n : Notification) (l : list Notification) :
  unread (n :: l) = if bool_decide (status n = "UNREAD") then n :: unread l else unread l.
Proof.
  unfold unread. rewrite filter_cons.
  destruct (decide (status n = "UNREAD")) as [H|H].
  - rewrite bool_decide_eq_true_2; auto.
  - rewrite bool_decide_eq_false_2; auto.
Qed.

Lemma unread_all_read (l : list Notification) :
  unread ((λ n, with_status n "READ") <$> l) = [].
Proof.
  induction l as [|n l IH]; [reflexivity|].
  rewrite fmap_cons, unread_cons, IH. reflexivity.
Qed.

Lemma with_status_same (n : Notification) :
  with_status n (status n) = n.
Proof. destruct n; reflexivity. Qed.

(** What a confirmation for [id] removes from the unread records is the
    unread records that carry [id]. *)
Lemma unread_after_mark (id : Z) (l : list Notification) :
  (length (unread ((λ n, if bool_decide (notificationId n = id)
                         then with_status n "READ" else n) <$> l))
   + length (unread_with_id id l))%nat
  = length (unread l).
Proof.
  unfold unread_with_id.
  induction l as [|n l IH]; [reflexivity|].
  rewrite fmap_cons, !unread_cons.
  destruct (decide (notificationId n = id)) as [Hid|Hid].
  - rewrite (bool_decide_eq_true_2 _ Hid). simpl.
    destruct (bool_decide (status n = "UNREAD")); simpl.
    + rewrite filter_cons, decide_True by done. simpl. lia.
    + exact IH.
  - rewrite (bool_decide_eq_false_2 _ Hid).
    destruct (bool_decide (status n = "UNREAD")); simpl.
    + rewrite filter_cons, decide_False by done. simpl. lia.
    + exact IH.
Qed.

(** Where every record that carries [id] is READ already (in particular
    where none carries it), the rewrite of the collection changes nothing. *)
Lemma mark_read_same (id : Z) (l : list Notification) :
  (∀ n, n ∈ l → notificationId n = id → status n = "READ") →
  (λ n, if bool_decide (notificationId n = id) then with_status n "READ" else n) <$> l = l.
Proof.
  induction l as [|n l IH]; intros H; [reflexivity|].
  rewrite fmap_cons, IH by (intros m Hm; apply H; right; exact Hm).
  f_equal. destruct (decide (notificationId n = id)) as [Hid|Hid].
  - rewrite bool_decide_eq_true_2 by done.
    rewrite <- (H n) by (done || left). apply with_status_same.
  - rewrite bool_decide_eq_false_2 by done. reflexivity.
Qed.

(** ** Mark all read *)

(** C4: once the bulk confirmation has come back, the unread counter is
    zero, every record has status READ, no record is UNREAD, and each
    record is the one that was at its place with only its status
    replaced. *)
Theorem markAllAsRead_all_read (w : World) :
  let w' := exec (markAllAsRead (Fulfilled ())) w in
  unreadCount w' = 0
  ∧ Forall (λ n, status n = "READ") (notifications w')
  ∧ unread (notifications w') = []
  ∧ Forall2 same_but_status (notifications w) (notifications w').
Proof.
  run_monad. split; [reflexivity|]. split; [|split].
  - apply Forall_fmap, Forall_true. reflexivity.
  - apply unread_all_read.
  - apply Forall2_fmap_r, Forall_Forall2_diag, Forall_true.
    intros n. repeat split.
Qed.

(** ** Snapshot *)

(** C5: a fetched page replaces the collection whatever it held before,
    and the unread counter becomes the number of UNREAD records of that
    page; for the page of three records with two unread it is 2.  The page
    may come wrapped in the paginated object or as a bare array. *)
Theorem loadNotifications_replaces (w : World) (page : list Notification) (data : PageData) :
  let w1 := exec (loadNotifications (Fulfilled (PageObject page))) w in
  let w2 := exec (loadNotifications (Fulfilled (BareArray page))) w in
  let w3 := exec (loadNotifications (Fulfilled (PageObject page3))) w in
  notifications w1 = page
  ∧ unreadCount w1 = Z.of_nat (length (unread page))
  ∧ notifications w2 = page
  ∧ unreadCount w2 = Z.of_nat (length (unread page))
  ∧ length (notifications w3) = 3%nat
  ∧ unreadCount w3 = 2
  ∧ consistent (exec (loadNotifications (Fulfilled data)) w).
Proof.
  unfold consistent. run_monad. repeat split; reflexivity.
Qed.

(** C7, as stated, fails: when the fetch is rejected nothing reaches the
    caller; the promise of [loadNotifications] is fulfilled and no error
    toast is shown. *)
Lemma loadNotifications_failure_not_surfaced :
  surfaced (loadNotifications (Rejected NetworkError)) live_world = false
  ∧ outcome (loadNotifications (Rejected NetworkError)) live_world = Ok ().
Proof. split; reflexivity. Qed.

(** C7, amended: when the fetch is rejected the error is caught and
    written to the console and goes no further (the promise is fulfilled,
    no toast is shown); the collection and the unread counter are what
    they were, and [loading] is back to false. *)
Theorem loadNotifications_failure (w : World) (e : js_error) :
  let m := loadNotifications (Rejected e) in
  outcome m w = Ok ()
  ∧ notifications (exec m w) = notifications w
  ∧ unreadCount (exec m w) = unreadCount w
  ∧ loading (exec m w) = false
  ∧ console (exec m w) = (console w ++ [mkLog LevelError "Failed to load notifications:" e])%list
  ∧ toasts (exec m w) = toasts w
  ∧ surfaced m w = false.
Proof.
  run_monad. destruct (api.unauthorized e); simpl;
    rewrite drop_all; repeat split; reflexivity.
Qed.

(** ** Mark one read *)

(** C3: when the confirm call is rejected the collection and the unread
    counter are what they were and the failure is put on screen as an error
    toast; the collection is rewritten and the counter lowered only when
    the call is fulfilled. *)
Theorem markAsRead_after_confirmation (w : World) (id : Z) (e : js_error) :
  let failed := markAsRead (Rejected e) id in
  let confirmed := markAsRead (Fulfilled ()) id in
  notifications (exec failed w) = notifications w
  ∧ unreadCount (exec failed w) = unreadCount w
  ∧ toasts (exec failed w) = (toasts w ++ [ToastError "Failed to mark notification as read"])%list
  ∧ surfaced failed w = true
  ∧ notifications (exec confirmed w) =
      ((λ n, if bool_decide (notificationId n = id) then with_status n "READ" else n)
         <$> notifications w)
  ∧ unreadCount (exec confirmed w) = Z.max 0 (unreadCount w - 1)
  ∧ toasts (exec confirmed w) = toasts w.
Proof.
  run_monad. destruct (api.unauthorized e); simpl;
    rewrite drop_app_length; repeat split; reflexivity.
Qed.

(** C2 at its failing input: after the records 2 and 1 have arrived and
    record 1 has been confirmed read, one record is unread and the counter
    is 1; a second confirmation for record 1, which is READ by then,
    leaves the collection as it is and takes the counter to 0 while record
    2 is still unread. *)
Theorem markAsRead_read_record_decrements :
  let before := run_store (take 3 double_confirmation) initial_world in
  let after := exec (markAsRead (Fulfilled ()) 1) before in
  (status <$> notifications before) = ["READ"; "UNREAD"]
  ∧ unreadCount before = 1
  ∧ notifications after = notifications before
  ∧ unreadCount after = 0
  ∧ length (unread (notifications after)) = 1%nat.
Proof. repeat split; reflexivity. Qed.

(** The same for every state: a confirmation for an identifier that no
    record carries, or that only READ records carry, leaves the collection
    as it is and lowers the counter by one unless it is zero already. *)
Lemma markAsRead_unmatched (w : World) (id : Z) :
  (∀ n, n ∈ notifications w → notificationId n = id → status n = "READ") →
  let w' := exec (markAsRead (Fulfilled ()) id) w in
  notifications w' = notifications w
  ∧ unreadCount w' = Z.max 0 (unreadCount w - 1).
Proof.
  intros H. run_monad. split; [|reflexivity].
  apply mark_read_same, H.
Qed.

(** ** The unread counter over a session *)

(** C1, as stated, fails: a streamed record that is not UNREAD is counted
    as unread all the same. *)
Lemma counter_drifts_on_read_record :
  let w := run_store [Ingest (sample 1 "READ")] initial_world in
  unreadCount w = 1 ∧ length (unread (notifications w)) = 0%nat ∧ ¬ consistent w.
Proof. repeat split; try reflexivity. unfold consistent. simpl. discriminate. Qed.

(** So is a record delivered twice: both copies are marked by one
    confirmation, which lowers the counter by one only. *)
Example counter_drifts_on_duplicate :
  let w := run_store [Ingest (sample 1 "UNREAD"); Ingest (sample 1 "UNREAD"); MarkRead 1]
             initial_world in
  unreadCount w = 1 ∧ unread (notifications w) = [].
Proof. split; reflexivity. Qed.

(** The scenario of the specification, step by step. *)
Example scenario_steps :
  let after k := run_store (take k scenario) initial_world in
  unreadCount (after 1%nat) = 1
  ∧ (notificationId <$> notifications (after 2%nat)) = [2; 1]
  ∧ unreadCount (after 2%nat) = 2
  ∧ unreadCount (after 3%nat) = 1
  ∧ (status <$> notifications (after 3%nat)) = ["UNREAD"; "READ"]
  ∧ unreadCount (after 4%nat) = 0
  ∧ (status <$> notifications (after 4%nat)) = ["READ"; "READ"].
Proof. repeat split; reflexivity. Qed.

Lemma store_step_consistent (w : World) (op : store_op) :
  consistent w → op_expected w op = true → consistent (exec (store_step op) w).
Proof.
  unfold consistent. intros Hc Hop.
  destruct op as [record|id|]; simpl in Hop.
  - apply bool_decide_eq_true_1 in Hop.
    run_monad.
    destruct (bool_decide _ || _); simpl;
      rewrite unread_cons, bool_decide_eq_true_2 by done; simpl length; lia.
  - apply bool_decide_eq_true_1 in Hop.
    pose proof (unread_after_mark id (notifications w)) as Hlen.
    run_monad. lia.
  - run_monad. rewrite unread_all_read. reflexivity.
Qed.

Lemma run_store_consistent (ops : list store_op) :
  ∀ w, consistent w → all_expected w ops = true →
       ∀ k, consistent (run_store (take k ops) w).
Proof.
  induction ops as [|op ops IH]; intros w Hc Hall k.
  - rewrite take_nil. exact Hc.
  - destruct k as [|k]; [exact Hc|].
    simpl in Hall. apply andb_prop in Hall as [Hop Hrest].
    simpl. apply IH; [|exact Hrest].
    apply store_step_consistent; assumption.
Qed.

(** C1, amended: over every sequence of operations from the empty Store
    in which each streamed record is UNREAD and each confirmation is for an
    identifier carried by exactly one UNREAD record (mark-all-read is
    unrestricted), the unread counter equals the number of UNREAD records
    after each operation. *)
Theorem unread_counter_consistent (ops : list store_op) (k : nat) :
  all_expected initial_world ops = true →
  consistent (run_store (take k ops) initial_world).
Proof.
  intros H. apply run_store_consistent; [reflexivity|exact H].
Qed.

Lemma unread_counter_consistent_witness :
  all_expected initial_world scenario = true
  ∧ consistent (run_store (take 3 scenario) initial_world).
Proof.
  split; [reflexivity|].
  apply (unread_counter_consistent scenario 3). reflexivity.
Defined.

(** ** The message handler of the transport client *)

(** C8, as stated, fails: the payloads [42] and [null] are no structured
    records, yet they parse, and the handler hands the parsed value to the
    callback and logs nothing. *)
Lemma onmessage_delivers_non_record :
  let handle := notificationService.eventSource_onmessage JSON.parse probe in
  JSON.parse "42" = Some (VNum 42 0)
  ∧ JSON.parse "null" = Some VNull
  ∧ toasts (exec (handle "42") initial_world) = [ToastBell "not a record"]
  ∧ console (exec (handle "42") initial_world) = []
  ∧ toasts (exec (handle "null") initial_world) = [ToastBell "not a record"]
  ∧ console (exec (handle "null") initial_world) = [].
Proof. vm_compute. repeat split; reflexivity. Qed.

(** C8, amended: whatever the payload, nothing is thrown out of the
    message handler.  A payload that [JSON.parse] rejects is logged and
    dropped: the handler does the same whichever callback it was given,
    namely one [console.error].  A payload that [JSON.parse] accepts,
    record or not, is handed to the callback once, as parsed; what the
    callback throws is caught and logged. *)
Theorem eventSource_onmessage_delivery
    (JSON_parse : string → option value) (onMessage : value → M unit)
    (data : string) (w : World) :
  let handle := notificationService.eventSource_onmessage JSON_parse in
  let log_it := console_error "Failed to parse SSE notification:" in
  outcome (handle onMessage data) w = Ok ()
  ∧ (JSON_parse data = None →
     (∀ other : value → M unit, handle other data w = handle onMessage data w)
     ∧ handle onMessage data w
       = (Ok (), exec (log_it (SyntaxError "Unexpected token in JSON")) w))
  ∧ (∀ record : value, JSON_parse data = Some record →
     handle onMessage data w = try_catch (onMessage record) log_it w).
Proof.
  unfold notificationService.eventSource_onmessage,
    notificationService.JSON_parse_or_throw.
  cbv zeta. split; [|split].
  - unfold outcome, try_catch, mbind, M_bind.
    destruct (JSON_parse data) as [v|]; simpl.
    + destruct (onMessage v w) as [[[]|e] w']; reflexivity.
    + reflexivity.
  - intros ->. split; [intros other|]; reflexivity.
  - intros record ->. unfold try_catch, mbind, M_bind. simpl.
    reflexivity.
Qed.

Lemma eventSource_onmessage_delivery_witness :
  let handle := notificationService.eventSource_onmessage JSON.parse in
  let log_it := console_error "Failed to parse SSE notification:" in
  (JSON.parse payload_truncated = None
   ∧ handle probe payload_truncated live_world
     = (Ok (), exec (log_it (SyntaxError "Unexpected token in JSON")) live_world))
  ∧ (JSON.parse payload_record
     = Some (VObj [("notificationId", VNum 5 0); ("status", VStr "UNREAD")])
     ∧ handle probe payload_record live_world
       = try_catch
           (probe (VObj [("notificationId", VNum 5 0); ("status", VStr "UNREAD")]))
           log_it live_world).
Proof.
  cbv zeta. split.
  - split; [vm_compute; reflexivity|].
    apply (eventSource_onmessage_delivery JSON.parse probe payload_truncated live_world).
    vm_compute; reflexivity.
  - split; [vm_compute; reflexivity|].
    apply (eventSource_onmessage_delivery JSON.parse probe payload_record live_world).
    vm_compute; reflexivity.
Defined.

(** On concrete payloads: a record reaches the callback, a truncated text
    is logged and does not, and a JSON text that is not an object (here a
    number) parses and is delivered like any other. *)
Example onmessage_samples :
  let handle := notificationService.eventSource_onmessage JSON.parse probe in
  toasts (exec (handle payload_record) initial_world) = [ToastBell "record"]
  ∧ toasts (exec (handle payload_truncated) initial_world) = []
  ∧ length (console (exec (handle payload_truncated) initial_world)) = 1%nat
  ∧ toasts (exec (handle "42") initial_world) = [ToastBell "not a record"].
Proof. vm_compute. repeat split; reflexivity. Qed.

(** ** One connection at a time *)

Lemma open_from_ge (l : list EventSource) :
  ∀ i x, x ∈ open_from i l → (i ≤ x)%nat.
Proof.
  induction l as [|es l IH]; intros i x Hx; simpl in Hx.
  - inversion Hx.
  - destruct (closed es).
    + apply IH in Hx. lia.
    + apply elem_of_cons in Hx as [->|Hx]; [lia|]. apply IH in Hx. lia.
Qed.

Lemma open_from_app (l : list EventSource) (es : EventSource) :
  ∀ i, open_from i (l ++ [es])
       = (open_from i l ++ if closed es then [] else [(i + length l)%nat])%list.
Proof.
  induction l as [|x l IH]; intros i; simpl.
  - rewrite Nat.add_0_r. reflexivity.
  - rewrite IH, Nat.add_succ_r. destruct (closed x); reflexivity.
Qed.

Lemma open_from_close (l : list EventSource) :
  ∀ i h, open_from i l = [(i + h)%nat] →
         open_from i (alter (λ es, mkEventSource (url es) true) h l) = [].
Proof.
  induction l as [|es l IH]; intros i h H; simpl in H; [discriminate|].
  destruct h as [|h]; simpl.
  - destruct (closed es) eqn:Hc.
    + assert (Hin : (i + 0)%nat ∈ open_from (S i) l) by (rewrite H; left).
      apply open_from_ge in Hin. lia.
    + inversion H. reflexivity.
  - destruct (closed es) eqn:Hc.
    + apply IH. rewrite H. f_equal. lia.
    + inversion H. lia.
Qed.

Lemma open_from_length (l : list EventSource) :
  ∀ i, length (open_from i l) = length (filter (λ es, closed es = false) l).
Proof.
  induction l as [|es l IH]; intros i; [reflexivity|].
  simpl. rewrite filter_cons.
  destruct (closed es); simpl; rewrite IH; reflexivity.
Qed.

(** [stopSSEStream] never throws. *)
Lemma stopSSEStream_returns (w : World) :
  stopSSEStream w = (Ok (), exec stopSSEStream w).
Proof. run_monad. destruct (eventSourceRef w); reflexivity. Qed.

(** [startSSEStream] is [stopSSEStream] followed by the guarded opening. *)
Lemma startSSEStream_unfold (w : World) :
  let w1 := exec stopSSEStream w in
  startSSEStream w =
    if token_falsy (token w1) then (Ok (), w1)
    else if sseAvailable w1
    then (Ok (),
          {| notifications := notifications w1;
             unreadCount := unreadCount w1;
             loading := loading w1;
             eventSourceRef := Some (length (sources w1));
             sources :=
               sources w1
               ++ [mkEventSource
                     ("/api/v1/notifications/stream?token=" +:+ token_text (token w1))
                     false];
             token := token w1;
             sseAvailable := sseAvailable w1;
             console := console w1;
             toasts := toasts w1 |})
    else (Ok (),
          exec (console_error "Failed to start SSE stream:"
                  (ReferenceError "EventSource is not defined")) w1).
Proof.
  cbv zeta. unfold startSSEStream.
  unfold mbind at 1, M_bind at 1. rewrite stopSSEStream_returns.
  generalize (exec stopSSEStream w) as w1. intros w1.
  run_monad. destruct (token_falsy (token w1)); [reflexivity|].
  simpl. destruct (sseAvailable w1) eqn:Ha; simpl; rewrite ?Ha; reflexivity.
Qed.

Lemma stopSSEStream_closes (w : World) :
  handle_owns_stream w →
  open_handles (exec stopSSEStream w) = [] ∧ eventSourceRef (exec stopSSEStream w) = None.
Proof.
  unfold handle_owns_stream, open_handles. intros H. run_monad.
  destruct (eventSourceRef w) as [h|] eqn:Hr; simpl in *; [|auto].
  split; [|auto]. apply open_from_close. exact H.
Qed.

Lemma stream_step_owns (w : World) (op : stream_op) :
  handle_owns_stream w → handle_owns_stream (exec (stream_step op) w).
Proof.
  intros H. destruct (stopSSEStream_closes w H) as (Ho & Hr).
  destruct op as [| |t]; simpl.
  - unfold exec at 1. rewrite startSSEStream_unfold.
    unfold handle_owns_stream, open_handles in *.
    destruct (token_falsy _); simpl; [rewrite Ho, Hr; reflexivity|].
    destruct (sseAvailable _); simpl.
    + rewrite open_from_app, Ho. reflexivity.
    + rewrite Ho, Hr. reflexivity.
  - unfold handle_owns_stream. rewrite Ho, Hr. reflexivity.
  - exact H.
Qed.




Lemma owner_at_most_one (w : World) :
  handle_owns_stream w → (length (open_sources w) ≤ 1)%nat.
Proof.
  unfold handle_owns_stream, open_handles, open_sources. intros H.
  rewrite <- (open_from_length _ 0), H.
  destruct (eventSourceRef w); simpl; lia.
Qed.




(** A login, a second start and a logout: one connection is open after
    each start, the first was closed by the second, none is open at the
    end. *)
Example stream_samples :
  let w1 := run_stream [StoreToken (Some "jwt"); Start] initial_world in
  let w2 := run_stream [Start] w1 in
  let w3 := run_stream [StoreToken None; Stop] w2 in
  open_handles w1 = [0%nat] ∧ open_handles w2 = [1%nat]
  ∧ (closed <$> sources w2) = [true; false]
  ∧ open_handles w3 = [] ∧ eventSourceRef w3 = None.
Proof. vm_compute. repeat split; reflexivity. Qed.

(** C10: a stream start made while storage holds no token (or an empty
    one) opens no connection: no [EventSource] is constructed, the stored
    handle is null afterwards, the collection and the unread counter are
    what they were, and nothing is logged or toasted, so neither the error
    callback nor the catch branch ran. *)
Theorem startSSEStream_without_token (w : World) :
  token_falsy (token w) = true →
  let w' := exec startSSEStream w in
  outcome startSSEStream w = Ok ()
  ∧ eventSourceRef w' = None
  ∧ length (sources w') = length (sources w)
  ∧ (url <$> sources w') = (url <$> sources w)
  ∧ notifications w' = notifications w
  ∧ unreadCount w' = unreadCount w
  ∧ console w' = console w
  ∧ toasts w' = toasts w.
Proof.
  intros Htok. cbv zeta. unfold outcome, exec at 1 2 3 4 5 6 7.
  rewrite startSSEStream_unfold.
  assert (Ht : token (exec stopSSEStream w) = token w)
    by (run_monad; destruct (eventSourceRef w); reflexivity).
  rewrite Ht, Htok. simpl.
  run_monad. destruct (eventSourceRef w) as [h|] eqn:Hr; simpl; repeat split;
    try reflexivity; try exact Hr.
  - apply length_alter.
  - rewrite (list_fmap_alter url _ id).
    + apply list_alter_id. reflexivity.
    + apply Forall_true. reflexivity.
Qed.

Lemma startSSEStream_without_token_witness :
  token_falsy (token live_world_no_token) = true
  ∧ eventSourceRef (exec startSSEStream live_world_no_token) = None
  ∧ length (sources (exec startSSEStream live_world_no_token)) = 1%nat.
Proof.
  split; [reflexivity|].
  pose proof (startSSEStream_without_token live_world_no_token eq_refl)
    as (_ & Hr & Hl & _).
  split; [exact Hr|exact Hl].
Defined.

(** * The provider beyond the store operations *)

(** ** Snapshot *)

(** Splitting [loadNotifications] at its [await] loses nothing. *)
Lemma loadNotifications_split (backend : response PageData) (w : World) :
  loadNotifications backend w
  = (loadNotifications_start;; loadNotifications_settle backend) w.
Proof.
  destruct backend as [data|e]; run_monad; [reflexivity|].
  unfold loadNotifications_start, loadNotifications_settle. run_monad.
  destruct (api.unauthorized e); reflexivity.
Qed.

Lemma loadNotifications_fulfilled (w : World) (data : PageData) :
  loadNotifications (Fulfilled data) w
  = (Ok (),
     {| notifications := notifList_of data;
        unreadCount := Z.of_nat (length (unread (notifList_of data)));
        loading := false;
        eventSourceRef := eventSourceRef w;
        sources := sources w;
        token := token w;
        sseAvailable := sseAvailable w;
        console := console w;
        toasts := toasts w |}).
Proof. reflexivity. Qed.

(** Loading the same fulfilled snapshot twice in a row gives the state
    that loading it once gives: collection, counter, loading flag, console
    and toasts alike. *)
Theorem loadNotifications_idempotent (w : World) (data : PageData) :
  let load := loadNotifications (Fulfilled data) in
  exec load (exec load w) = exec load w
  ∧ outcome load (exec load w) = Ok ().
Proof.
  cbv zeta. unfold exec, outcome.
  rewrite !loadNotifications_fulfilled. split; reflexivity.
Qed.

(** From the state a fulfilled snapshot leaves, whatever came before it,
    every sequence of expected store operations keeps the unread counter
    equal to the number of UNREAD records after each operation. *)
Theorem snapshot_then_consistent
    (w : World) (data : PageData) (ops : list store_op) (k : nat) :
  let w0 := exec (loadNotifications (Fulfilled data)) w in
  all_expected w0 ops = true →
  consistent (run_store (take k ops) w0).
Proof.
  cbv zeta. intros H. apply run_store_consistent; [|exact H].
  unfold consistent. run_monad. reflexivity.
Qed.

Lemma snapshot_then_consistent_witness :
  let w0 := exec (loadNotifications (Fulfilled (PageObject page3))) live_world in
  let ops := [MarkRead 1; Ingest (sample 4 "UNREAD"); MarkAllRead] in
  all_expected w0 ops = true ∧ consistent (run_store (take 2 ops) w0).
Proof.
  cbv zeta. split; [reflexivity|].
  apply (snapshot_then_consistent live_world (PageObject page3)
           [MarkRead 1; Ingest (sample 4 "UNREAD"); MarkAllRead] 2).
  reflexivity.
Defined.

(** ** Mark all read, refused *)

(** When the bulk confirmation is rejected nothing is marked: collection
    and counter are what they were, the promise is fulfilled all the same,
    and the only toast is the error one. *)
Theorem markAllAsRead_failure (w : World) (e : js_error) :
  let m := markAllAsRead (Rejected e) in
  outcome m w = Ok ()
  ∧ notifications (exec m w) = notifications w
  ∧ unreadCount (exec m w) = unreadCount w
  ∧ toasts (exec m w) = (toasts w ++ [ToastError "Failed to mark all as read"])%list
  ∧ surfaced m w = true.
Proof.
  run_monad. destruct (api.unauthorized e); simpl;
    rewrite drop_app_length; repeat split; reflexivity.
Qed.

(** ** What marking one record can and cannot do *)

Lemma mark_read_pointwise (id : Z) (l : list Notification) :
  Forall2 (λ n n', same_but_status n n'
                   ∧ (notificationId n ≠ id → n' = n)
                   ∧ (notificationId n = id → status n' = "READ"))
    l ((λ n, if bool_decide (notificationId n = id) then with_status n "READ" else n) <$> l).
Proof.
  apply Forall2_fmap_r, Forall_Forall2_diag, Forall_true. intros n.
  unfold compose. case_bool_decide; repeat split; done.
Qed.

(** Whatever the backend answers, [markAsRead] does not throw, keeps every
    record at its place with all its fields but [status], leaves records
    with another identifier exactly as they were, and moves the counter
    neither up nor below zero (if it was not below already). *)
Theorem markAsRead_keeps_records (w : World) (backend : response unit) (id : Z) :
  let m := markAsRead backend id in
  outcome m w = Ok ()
  ∧ Forall2 (λ n n', same_but_status n n' ∧ (notificationId n ≠ id → n' = n))
      (notifications w) (notifications (exec m w))
  ∧ (Z.min 0 (unreadCount w) ≤ unreadCount (exec m w) ≤ Z.max 0 (unreadCount w))%Z.
Proof.
  destruct backend as [[]|e].
  - run_monad. split; [reflexivity|]. split; [|lia].
    eapply list.Forall2_impl; [apply mark_read_pointwise|].
    intros n n' (? & ? & _). auto.
  - run_monad. destruct (api.unauthorized e); simpl;
      (split; [reflexivity|]; split; [|lia]);
      apply Forall_Forall2_diag, Forall_true; intros n; repeat split.
Qed.

(** ** Stream errors *)

(** A connection error is logged twice, once by the transport client and
    once by the provider, and that is all: nothing is thrown, the
    collection, the counter, the stored handle and the connections are
    untouched, so nothing is closed and nothing is reopened. *)
Theorem stream_error_only_logs (w : World) (err : js_error) :
  let w' := exec (stream_error err) w in
  outcome (stream_error err) w = Ok ()
  ∧ console w' = (console w ++ [mkLog LevelError "SSE connection error:" err;
                                mkLog LevelWarn "SSE error, will retry..." err])%list
  ∧ notifications w' = notifications w
  ∧ unreadCount w' = unreadCount w
  ∧ eventSourceRef w' = eventSourceRef w
  ∧ sources w' = sources w
  ∧ toasts w' = toasts w.
Proof.
  unfold stream_error, notificationService.eventSource_onerror. run_monad.
  rewrite <- app_assoc. repeat split; reflexivity.
Qed.

(** ** Stopping and starting the stream *)

(** [stopSSEStream] can be called again, and on a null handle: the second
    call changes nothing, and no call throws. *)
Theorem stopSSEStream_idempotent (w : World) :
  exec stopSSEStream (exec stopSSEStream w) = exec stopSSEStream w
  ∧ outcome stopSSEStream w = Ok ()
  ∧ eventSourceRef (exec stopSSEStream w) = None.
Proof.
  run_monad. destruct (eventSourceRef w) as [h|] eqn:Hr; simpl.
  - repeat split; reflexivity.
  - rewrite Hr. repeat split; reflexivity || exact Hr.
Qed.

Lemma startSSEStream_opens_at (w : World) (tok : string) :
  token w = Some tok → tok ≠ "" → sseAvailable w = true →
  let w' := exec startSSEStream w in
  eventSourceRef w' = Some (length (sources w))
  ∧ length (sources w') = S (length (sources w))
  ∧ sources w' !! length (sources w)
    = Some (mkEventSource ("/api/v1/notifications/stream?token=" +:+ tok) false)
  ∧ notifications w' = notifications w
  ∧ unreadCount w' = unreadCount w
  ∧ console w' = console w
  ∧ toasts w' = toasts w.
Proof.
  intros Htok Hne Hsse. cbv zeta. unfold exec at 1 2 3 4 5 6 7.
  rewrite startSSEStream_unfold.
  assert (Hs : token (exec stopSSEStream w) = token w
               ∧ sseAvailable (exec stopSSEStream w) = sseAvailable w
               ∧ length (sources (exec stopSSEStream w)) = length (sources w)
               ∧ notifications (exec stopSSEStream w) = notifications w
               ∧ unreadCount (exec stopSSEStream w) = unreadCount w
               ∧ console (exec stopSSEStream w) = console w
               ∧ toasts (exec stopSSEStream w) = toasts w).
  { run_monad. destruct (eventSourceRef w); simpl; repeat split; try reflexivity.
    apply length_alter. }
  destruct Hs as (Ht & Ha & Hl & Hn & Hc & Hco & Hto).
  rewrite Ht, Ha, Htok, Hsse. simpl.
  rewrite bool_decide_eq_false_2 by exact Hne. simpl.
  rewrite ?Hl, ?Ht, ?Htok. simpl. repeat split; try assumption.
  - rewrite length_app, Hl. simpl. lia.
  - rewrite lookup_app_r by lia. rewrite Hl, Nat.sub_diag. reflexivity.
Qed.

(** With a token in storage and [EventSource] available, a start opens
    exactly one new connection, on the stream URL that carries the token,
    and stores its handle; the collection, the counter, the console and
    the toasts are untouched. *)
Theorem startSSEStream_opens (w : World) (tok : string) :
  token w = Some tok → tok ≠ "" → sseAvailable w = true →
  let w' := exec startSSEStream w in
  eventSourceRef w' = Some (length (sources w))
  ∧ length (sources w') = S (length (sources w))
  ∧ sources w' !! length (sources w)
    = Some (mkEventSource ("/api/v1/notifications/stream?token=" +:+ tok) false)
  ∧ notifications w' = notifications w
  ∧ unreadCount w' = unreadCount w
  ∧ console w' = console w
  ∧ toasts w' = toasts w.
Proof. exact (startSSEStream_opens_at w tok). Qed.

Lemma startSSEStream_opens_witness :
  token live_world = Some "jwt" ∧ "jwt" ≠ "" ∧ sseAvailable live_world = true
  ∧ eventSourceRef (exec startSSEStream live_world) = Some 1%nat
  ∧ sources (exec startSSEStream live_world) !! 1%nat
    = Some (mkEventSource "/api/v1/notifications/stream?token=jwt" false).
Proof.
  assert (Hne : "jwt" ≠ "") by discriminate.
  pose proof (startSSEStream_opens live_world "jwt" eq_refl Hne eq_refl)
    as (Hr & _ & Hs & _).
  split; [reflexivity|]. split; [exact Hne|]. split; [reflexivity|].
  split; [exact Hr|exact Hs].
Defined.

(** A start never throws.  Where [EventSource] cannot be constructed the
    failure is caught and logged once, no handle is stored and no
    connection is added. *)
Theorem startSSEStream_never_throws (w : World) :
  let w' := exec startSSEStream w in
  outcome startSSEStream w = Ok ()
  ∧ (sseAvailable w = false →
     eventSourceRef w' = None
     ∧ length (sources w') = length (sources w)
     ∧ console w'
       = if token_falsy (token w) then console w
         else (console w ++ [mkLog LevelError "Failed to start SSE stream:"
                               (ReferenceError "EventSource is not defined")])%list).
Proof.
  cbv zeta. unfold outcome, exec. rewrite startSSEStream_unfold.
  assert (Hs : token (exec stopSSEStream w) = token w
               ∧ sseAvailable (exec stopSSEStream w) = sseAvailable w
               ∧ length (sources (exec stopSSEStream w)) = length (sources w)
               ∧ eventSourceRef (exec stopSSEStream w) = None
               ∧ console (exec stopSSEStream w) = console w).
  { run_monad. destruct (eventSourceRef w) eqn:Hr; simpl; repeat split;
      try reflexivity; try exact Hr. apply length_alter. }
  destruct Hs as (Ht & Ha & Hl & Hr & Hco).
  rewrite Ht, Ha. split.
  - destruct (token_falsy (token w)); [reflexivity|].
    destruct (sseAvailable w); reflexivity.
  - intros ->. destruct (token_falsy (token w)); simpl.
    + auto.
    + run_monad. rewrite Hco. auto.
Qed.

Lemma startSSEStream_never_throws_witness :
  let w := exec (set_token (Some "jwt")) (mounted None false) in
  sseAvailable w = false
  ∧ eventSourceRef (exec startSSEStream w) = None
  ∧ length (console (exec startSSEStream w)) = 1%nat.
Proof.
  cbv zeta. split; [reflexivity|].
  pose proof (startSSEStream_never_throws
                (exec (set_token (Some "jwt")) (mounted None false)))
    as (_ & H).
  destruct (H eq_refl) as (Hr & _ & Hc).
  split; [exact Hr|]. rewrite Hc. reflexivity.
Defined.

(** ** The session effect *)

Lemma sessionEffect_falsy (w : World) (user : value) :
  truthy user = false →
  let w1 := exec stopSSEStream w in
  sessionEffect user w
  = (Ok (),
     {| notifications := [];
        unreadCount := 0;
        loading := loading w1;
        eventSourceRef := eventSourceRef w1;
        sources := sources w1;
        token := token w1;
        sseAvailable := sseAvailable w1;
        console := console w1;
        toasts := toasts w1 |}).
Proof.
  intros Hu. cbv zeta. unfold sessionEffect. rewrite Hu.
  unfold mbind at 1, M_bind at 1. rewrite stopSSEStream_returns.
  reflexivity.
Qed.

(** When the user is gone the effect leaves an empty, consistent store and
    no connection: the collection is empty, the counter zero, the handle
    null and, the handle having been the owner of the stream, nothing is
    open. *)
Theorem sessionEffect_logged_out (w : World) (user : value) :
  truthy user = false → handle_owns_stream w →
  let w' := exec (sessionEffect user) w in
  outcome (sessionEffect user) w = Ok ()
  ∧ notifications w' = []
  ∧ unreadCount w' = 0
  ∧ consistent w'
  ∧ eventSourceRef w' = None
  ∧ open_handles w' = [].
Proof.
  intros Hu Hown. cbv zeta.
  destruct (stopSSEStream_closes w Hown) as (Ho & Hr).
  unfold outcome, exec at 1 2 3 4 5. unfold consistent, open_handles in *.
  rewrite (sessionEffect_falsy w user Hu). simpl.
  repeat split; assumption.
Qed.

Lemma sessionEffect_logged_out_witness :
  truthy VNull = false ∧ handle_owns_stream live_world
  ∧ notifications (exec (sessionEffect VNull) live_world) = []
  ∧ open_handles (exec (sessionEffect VNull) live_world) = [].
Proof.
  assert (Hown : handle_owns_stream live_world) by reflexivity.
  pose proof (sessionEffect_logged_out live_world VNull eq_refl Hown)
    as (_ & Hn & _ & _ & _ & Ho).
  split; [reflexivity|]. split; [exact Hown|]. split; [exact Hn|exact Ho].
Defined.

Lemma stream_step_store (w : World) (op : stream_op) :
  let w' := exec (stream_step op) w in
  outcome (stream_step op) w = Ok ()
  ∧ notifications w' = notifications w
  ∧ unreadCount w' = unreadCount w
  ∧ loading w' = loading w
  ∧ toasts w' = toasts w.
Proof.
  cbv zeta.
  assert (Hstop : notifications (exec stopSSEStream w) = notifications w
                  ∧ unreadCount (exec stopSSEStream w) = unreadCount w
                  ∧ loading (exec stopSSEStream w) = loading w
                  ∧ toasts (exec stopSSEStream w) = toasts w).
  { run_monad. destruct (eventSourceRef w); simpl; auto. }
  destruct op as [| |t]; simpl.
  - unfold outcome, exec at 1 2 3 4. rewrite startSSEStream_unfold.
    destruct (token_falsy _); [split; [reflexivity|exact Hstop]|].
    destruct (sseAvailable _); (split; [reflexivity|exact Hstop]).
  - split; [|exact Hstop]. unfold outcome.
    rewrite stopSSEStream_returns. reflexivity.
  - run_monad. auto.
Qed.

(** Starting the stream, stopping it and storing a token never throw and
    never touch the collection, the counter, the loading flag or the
    toasts. *)
Theorem stream_operations_keep_store (w : World) (op : stream_op) :
  let w' := exec (stream_step op) w in
  outcome (stream_step op) w = Ok ()
  ∧ notifications w' = notifications w
  ∧ unreadCount w' = unreadCount w
  ∧ loading w' = loading w
  ∧ toasts w' = toasts w.
Proof. exact (stream_step_store w op). Qed.

(** When a user is there the effect raises the loading flag and then
    runs [startSSEStream], which is all it does before the fetch settles;
    it does not throw and leaves the collection and the counter alone.
    Once the fetch is fulfilled the collection is the fetched page, and
    what the stream delivered in between is gone unless the page has
    it. *)
Theorem sessionEffect_logged_in
    (w : World) (user : value) (record : Notification) (data : PageData) :
  truthy user = true →
  let w1 := exec (sessionEffect user) w in
  let w2 := exec (onNewNotification record) w1 in
  let w3 := exec (loadNotifications_settle (Fulfilled data)) w2 in
  w1 = exec startSSEStream (exec (setLoading true) w)
  ∧ outcome (sessionEffect user) w = Ok ()
  ∧ loading w1 = true
  ∧ notifications w1 = notifications w
  ∧ unreadCount w1 = unreadCount w
  ∧ notifications w2 = record :: notifications w
  ∧ notifications w3 = notifList_of data
  ∧ unreadCount w3 = Z.of_nat (length (unread (notifList_of data)))
  ∧ loading w3 = false
  ∧ sources w3 = sources w1
  ∧ eventSourceRef w3 = eventSourceRef w1.
Proof.
  intros Hu. cbv zeta.
  assert (He : exec (sessionEffect user) w
               = exec startSSEStream (exec (setLoading true) w)).
  { unfold sessionEffect, loadNotifications_start. rewrite Hu. reflexivity. }
  assert (Hout : outcome (sessionEffect user) w = Ok ()).
  { destruct (stream_step_store (exec (setLoading true) w) Start) as (Hok & _).
    unfold sessionEffect, loadNotifications_start. rewrite Hu. exact Hok. }
  rewrite He.
  destruct (stream_step_store (exec (setLoading true) w) Start)
    as (_ & Hn & Hc & Hl & _).
  simpl in Hn, Hc, Hl.
  split; [reflexivity|]. split; [exact Hout|]. clear Hout.
  generalize dependent (exec startSSEStream (exec (setLoading true) w)).
  intros w1 _ Hn Hc Hl.
  split; [exact Hl|]. split; [exact Hn|]. split; [exact Hc|].
  unfold loadNotifications_settle. run_monad.
  destruct (bool_decide _ || _); simpl; rewrite Hn; repeat split; reflexivity.
Qed.

Lemma sessionEffect_logged_in_witness :
  let user := VObj [("role", VStr "EMPLOYEE")] in
  let w1 := exec (sessionEffect user) (exec (set_token (Some "jwt")) initial_world) in
  let w3 := exec (loadNotifications_settle (Fulfilled (PageObject page3)))
              (exec (onNewNotification (sample 9 "UNREAD")) w1) in
  truthy user = true ∧ loading w1 = true ∧ notifications w3 = page3.
Proof.
  cbv zeta.
  pose proof (sessionEffect_logged_in (exec (set_token (Some "jwt")) initial_world)
                (VObj [("role", VStr "EMPLOYEE")]) (sample 9 "UNREAD")
                (PageObject page3) eq_refl)
    as (_ & _ & Hl & _ & _ & _ & Hn & _).
  split; [reflexivity|]. split; [exact Hl|exact Hn].
Defined.

(** ** The store operations leave the stream alone *)

Lemma page_step_stream (ev : page_event) (w : World) :
  sources (exec (page_step ev) w) = sources w
  ∧ eventSourceRef (exec (page_step ev) w) = eventSourceRef w.
Proof.
  destruct ev as [i backend|backend|record]; simpl.
  - unfold exec, click_row, row_onClick.
    destruct (notifications w !! i) as [notif|]; [|auto].
    destruct (bool_decide (status notif = "UNREAD")); [|auto].
    destruct backend as [[]|e]; run_monad; auto.
    destruct (api.unauthorized e); auto.
  - unfold exec, click_mark_all. destruct (0 <? unreadCount w)%Z; [|auto].
    destruct backend as [[]|e]; run_monad; auto.
    destruct (api.unauthorized e); auto.
  - run_monad. destruct (bool_decide _ || _); auto.
Qed.

(** No click on the page, no streamed record and no snapshot, fulfilled
    or rejected, opens, closes or replaces a connection: the connections
    and the stored handle are what they were, so the handle keeps owning
    the stream. *)
Theorem store_operations_keep_stream
    (w : World) (ev : page_event) (backend : response PageData) :
  let w1 := exec (page_step ev) w in
  let w2 := exec (loadNotifications backend) w in
  sources w1 = sources w ∧ eventSourceRef w1 = eventSourceRef w
  ∧ sources w2 = sources w ∧ eventSourceRef w2 = eventSourceRef w
  ∧ open_handles w1 = open_handles w ∧ open_handles w2 = open_handles w.
Proof.
  cbv zeta. destruct (page_step_stream ev w) as (Hs & Hr).
  assert (H2 : sources (exec (loadNotifications backend) w) = sources w
               ∧ eventSourceRef (exec (loadNotifications backend) w) = eventSourceRef w).
  { destruct backend as [data|e]; run_monad; auto.
    destruct (api.unauthorized e); auto. }
  destruct H2 as (Hs2 & Hr2).
  unfold open_handles. rewrite Hs, Hs2. repeat split; assumption.
Qed.

(** ** The page *)

Lemma unread_with_id_absent (id : Z) (l : list Notification) :
  id ∉ notificationId <$> l → unread_with_id id l = [].
Proof.
  unfold unread_with_id. induction l as [|n l IH]; intros H; [reflexivity|].
  rewrite fmap_cons, not_elem_of_cons in H. destruct H as [Hne Hl].
  rewrite unread_cons. destruct (bool_decide (status n = "UNREAD")).
  - rewrite filter_cons, decide_False by congruence. auto.
  - auto.
Qed.

(** With distinct identifiers an unread row is the only unread record
    under its identifier. *)
Lemma unread_row_unique (l : list Notification) :
  NoDup (notificationId <$> l) →
  ∀ i n, l !! i = Some n → status n = "UNREAD" →
         length (unread_with_id (notificationId n) l) = 1%nat.
Proof.
  induction l as [|x l IH]; intros Hnd i n Hi Hu; [discriminate|].
  rewrite fmap_cons in Hnd. apply list.NoDup_cons in Hnd as [Hx Hnd].
  unfold unread_with_id in *. rewrite unread_cons.
  destruct i as [|i]; simpl in Hi.
  - injection Hi as ->.
    rewrite bool_decide_eq_true_2 by done.
    rewrite filter_cons, decide_True by done.
    pose proof (unread_with_id_absent _ _ Hx) as Ha.
    unfold unread_with_id in Ha. rewrite Ha. reflexivity.
  - assert (Hne : notificationId x ≠ notificationId n).
    { intros Heq. apply Hx. rewrite Heq.
      apply list_elem_of_fmap. exists n. split; [reflexivity|].
      eapply list_elem_of_lookup_2, Hi. }
    destruct (bool_decide (status x = "UNREAD")).
    + rewrite filter_cons, decide_False by done. eapply IH; eauto.
    + eapply IH; eauto.
Qed.

Lemma mark_read_ids (id : Z) (l : list Notification) :
  notificationId <$> ((λ n, if bool_decide (notificationId n = id)
                            then with_status n "READ" else n) <$> l)
  = notificationId <$> l.
Proof.
  rewrite <- list_fmap_compose. apply list_fmap_ext. intros _ n _. simpl.
  destruct (bool_decide _); reflexivity.
Qed.

Lemma page_step_consistent (w : World) (ev : page_event) :
  consistent w → NoDup (ids w) → arrival_expected w ev = true →
  consistent (exec (page_step ev) w) ∧ NoDup (ids (exec (page_step ev) w)).
Proof.
  intros Hc Hnd Hev. destruct ev as [i backend|backend|record]; simpl.
  - unfold exec, click_row, row_onClick.
    destruct (notifications w !! i) as [notif|] eqn:Hi; [|auto].
    destruct (decide (status notif = "UNREAD")) as [Hu|Hu].
    + rewrite bool_decide_eq_true_2 by done.
      destruct backend as [[]|e].
      * split.
        -- apply (store_step_consistent w (MarkRead (notificationId notif)) Hc).
           simpl. apply bool_decide_eq_true_2.
           eapply unread_row_unique; eauto.
        -- unfold ids in *. run_monad. rewrite mark_read_ids. exact Hnd.
      * unfold consistent, ids in *. run_monad.
        destruct (api.unauthorized e); simpl; auto.
    + rewrite bool_decide_eq_false_2 by done. auto.
  - unfold exec, click_mark_all. destruct (0 <? unreadCount w)%Z; [|auto].
    destruct backend as [[]|e].
    + split.
      * apply (store_step_consistent w MarkAllRead Hc). reflexivity.
      * unfold ids in *. run_monad.
        rewrite <- list_fmap_compose. exact Hnd.
    + unfold consistent, ids in *. run_monad.
      destruct (api.unauthorized e); simpl; auto.
  - simpl in Hev. apply andb_prop in Hev as [Hu Hfresh].
    apply bool_decide_eq_true_1 in Hfresh.
    split.
    + apply (store_step_consistent w (Ingest record) Hc). exact Hu.
    + unfold ids in *. run_monad.
      destruct (bool_decide _ || _); simpl; apply list.NoDup_cons; auto.
Qed.

(** Through the page the counter stays exact.  From a state whose counter
    is exact and whose identifiers are distinct, every sequence of row
    clicks, mark-all clicks (each confirmed or refused by the backend
    before the next event) and arrivals of UNREAD records with new
    identifiers keeps, after each event, the counter equal to the number
    of UNREAD records and the identifiers distinct. *)
Theorem page_keeps_counter_exact (w : World) (evs : list page_event) (k : nat) :
  consistent w → NoDup (ids w) → arrivals_expected w evs = true →
  consistent (run_page (take k evs) w) ∧ NoDup (ids (run_page (take k evs) w)).
Proof.
  revert w k. induction evs as [|ev evs IH]; intros w k Hc Hnd Hall.
  - rewrite take_nil. auto.
  - destruct k as [|k]; [auto|].
    simpl in Hall. apply andb_prop in Hall as [Hev Hrest].
    destruct (page_step_consistent w ev Hc Hnd Hev) as [Hc' Hnd'].
    simpl. apply IH; assumption.
Qed.

Lemma page_keeps_counter_exact_witness :
  consistent live_world ∧ NoDup (ids live_world)
  ∧ arrivals_expected live_world page_session = true
  ∧ consistent (run_page (take 4 page_session) live_world).
Proof.
  assert (Hc : consistent live_world) by reflexivity.
  assert (Hnd : NoDup (ids live_world)).
  { apply (bool_decide_unpack _). vm_compute. exact I. }
  split; [exact Hc|]. split; [exact Hnd|]. split; [reflexivity|].
  apply (page_keeps_counter_exact live_world page_session 4 Hc Hnd). reflexivity.
Defined.

(** A second click on a row, made once the first has been answered,
    changes nothing: the first click, if confirmed, has turned the row to
    READ and the row no longer reacts. *)
Theorem click_row_twice (w : World) (i : nat) (backend : response unit) :
  let w1 := exec (click_row (Fulfilled ()) i) w in
  exec (click_row backend i) w1 = w1.
Proof.
  cbv zeta. unfold exec, click_row, row_onClick.
  destruct (notifications w !! i) as [notif|] eqn:Hi; simpl.
  - destruct (decide (status notif = "UNREAD")) as [Hu|Hu].
    + rewrite bool_decide_eq_true_2 by done. run_monad.
      rewrite list_lookup_fmap, Hi. simpl.
      rewrite (bool_decide_eq_true_2 (notificationId notif = notificationId notif))
        by reflexivity.
      simpl. reflexivity.
    + rewrite bool_decide_eq_false_2 by done. simpl.
      rewrite Hi, bool_decide_eq_false_2 by done. reflexivity.
  - rewrite Hi. reflexivity.
Qed.

(** * Authentication *)

Ltac run_auth :=
  unfold auth_exec, auth_outcome, logout, login, restoreSession,
    authService.logout, authService.login, session_request,
    auth_try_catch, auth_try_finally, auth_throw, in_world,
    setUser, setAuthLoading, set_savedUser, localStorage_getItem_user,
    notificationService.JSON_parse_or_throw,
    mbind, Auth_bind, mret, Auth_ret in *;
  run_monad.

(** ** Logout *)

Lemma logout_result (s : Session) (backend : response unit) :
  logout backend s
  = (match backend with Fulfilled _ => Ok () | Rejected e => Throw e end,
     {| user := VNull;
        authLoading := authLoading s;
        savedUser := None;
        world := exec (show_toast (ToastSuccess "Logged out successfully"))
                   (exec (set_token None) (world s)) |}).
Proof.
  destruct s as [u l su w]. destruct backend as [[]|e]; run_auth; [reflexivity|].
  destruct (api.unauthorized e); reflexivity.
Qed.

(** Logging out clears the session whether the backend call succeeds or
    not: the user is null, the ['token'] and ['user'] entries are gone and
    the farewell toast is shown; a failed call is still reported to the
    caller as a rejection.  The notification store and the stream are not
    touched by it. *)
Theorem logout_always_clears (s : Session) (backend : response unit) :
  let s' := auth_exec (logout backend) s in
  user s' = VNull
  ∧ savedUser s' = None
  ∧ token (world s') = None
  ∧ toasts (world s') = (toasts (world s) ++ [ToastSuccess "Logged out successfully"])%list
  ∧ auth_outcome (logout backend) s
    = match backend with Fulfilled _ => Ok () | Rejected e => Throw e end
  ∧ notifications (world s') = notifications (world s)
  ∧ unreadCount (world s') = unreadCount (world s)
  ∧ sources (world s') = sources (world s)
  ∧ eventSourceRef (world s') = eventSourceRef (world s).
Proof.
  cbv zeta. unfold auth_exec, auth_outcome. rewrite logout_result.
  repeat split; reflexivity.
Qed.

(** After a logout, fulfilled or rejected, the provider's cleanup and
    effect for the user that is left tear the notification session down:
    the collection is empty, the counter zero, no connection is open and
    no handle is stored. *)
Theorem logout_then_effect (s : Session) (backend : response unit) :
  handle_owns_stream (world s) →
  let s1 := auth_exec (logout backend) s in
  let w2 := exec (sessionCleanup;; sessionEffect (user s1)) (world s1) in
  notifications w2 = []
  ∧ unreadCount w2 = 0
  ∧ open_handles w2 = []
  ∧ eventSourceRef w2 = None
  ∧ token w2 = None.
Proof.
  intros Hown. cbv zeta. unfold auth_exec. rewrite logout_result. simpl.
  set (w1 := exec (show_toast _) _).
  assert (Hown1 : handle_owns_stream w1) by exact Hown.
  assert (Ht1 : token w1 = None) by reflexivity.
  clearbody w1.
  assert (He : exec (sessionCleanup;; sessionEffect VNull) w1
               = exec (sessionEffect VNull) (exec stopSSEStream w1)).
  { unfold sessionCleanup, exec. unfold mbind at 1, M_bind at 1.
    rewrite stopSSEStream_returns. reflexivity. }
  rewrite He. clear He.
  destruct (stopSSEStream_closes w1 Hown1) as (Ho & Hr).
  assert (Ht : token (exec stopSSEStream w1) = None).
  { rewrite <- Ht1. run_monad. destruct (eventSourceRef w1); reflexivity. }
  assert (Hown2 : handle_owns_stream (exec stopSSEStream w1)).
  { unfold handle_owns_stream. rewrite Ho, Hr. reflexivity. }
  generalize dependent (exec stopSSEStream w1). intros w1' Ho Hr Ht Hown2.
  unfold exec at 1 2 3 4 5.
  rewrite (sessionEffect_falsy w1' VNull eq_refl). simpl.
  destruct (stopSSEStream_closes w1' Hown2) as (Ho' & Hr').
  assert (Ht' : token (exec stopSSEStream w1') = None).
  { rewrite <- Ht. run_monad. destruct (eventSourceRef w1'); reflexivity. }
  unfold open_handles in *. simpl. repeat split; assumption || reflexivity.
Qed.

Lemma logout_then_effect_witness :
  let s := mkSession (userData_of alice) false (Some "saved") live_world in
  let s1 := auth_exec (logout (Rejected NetworkError)) s in
  let w2 := exec (sessionCleanup;; sessionEffect (user s1)) (world s1) in
  handle_owns_stream (world s) ∧ notifications w2 = [] ∧ open_handles w2 = [].
Proof.
  cbv zeta. split; [reflexivity|].
  pose proof (logout_then_effect
                (mkSession (userData_of alice) false (Some "saved") live_world)
                (Rejected NetworkError) eq_refl) as (Hn & _ & Ho & _).
  split; [exact Hn|exact Ho].
Defined.

(** ** Login *)

(** An accepted login stores the token and the serialised user, sets the
    user state to the object built from the answer, greets the user and
    returns that object; the object carries the six profile fields and not
    the token, and the role helpers read the role of the answer from it. *)
Theorem login_accepted
    (JSON_stringify : value → string) (s : Session) (data : LoginData)
    (email password : string) :
  let m := login JSON_stringify (Accepted data) email password in
  let s' := auth_exec m s in
  auth_outcome m s = Ok (userData_of data)
  ∧ user s' = userData_of data
  ∧ token (world s') = Some (login_token data)
  ∧ savedUser s' = Some (JSON_stringify (userData_of data))
  ∧ toasts (world s')
    = (toasts (world s) ++ [ToastSuccess ("Welcome back, " +:+ name data +:+ "!")])%list
  ∧ field "token" (user s') = None
  ∧ field "role" (user s') = Some (VStr (role data))
  ∧ role_is (role data) (user s') = true
  ∧ truthy (user s') = true.
Proof.
  destruct s as [u l su w]. run_auth.
  unfold role_is. simpl.
  rewrite bool_decide_eq_true_2 by reflexivity.
  repeat split; reflexivity.
Qed.

(** A refused login changes neither the user state nor the loading flag,
    shows the server's message if it sent a non-empty one and the stock
    message otherwise, and rejects with the error it got; the stored
    entries stay, except that a 401 removes both. *)
Theorem login_refused
    (JSON_stringify : value → string) (s : Session) (e : js_error)
    (msg : option string) (email password : string) :
  let m := login JSON_stringify (Refused e msg) email password in
  let s' := auth_exec m s in
  auth_outcome m s = Throw e
  ∧ user s' = user s
  ∧ authLoading s' = authLoading s
  ∧ toasts (world s') = (toasts (world s) ++ [ToastError (login_message msg)])%list
  ∧ token (world s') = (if api.unauthorized e then None else token (world s))
  ∧ savedUser s' = (if api.unauthorized e then None else savedUser s).
Proof.
  destruct s as [u l su w]. run_auth.
  destruct (api.unauthorized e); simpl; repeat split; reflexivity.
Qed.

(** ** Taking a saved session up again *)

(** The mount effect never throws and always ends the loading phase; run
    a second time it changes nothing, whatever the storage holds: a user
    that parses is set again to the same value, and unreadable data has
    been removed by the first run. *)
Theorem restoreSession_idempotent (JSON_parse : string → option value) (s : Session) :
  let restore := restoreSession JSON_parse in
  auth_outcome restore s = Ok ()
  ∧ authLoading (auth_exec restore s) = false
  ∧ auth_exec restore (auth_exec restore s) = auth_exec restore s.
Proof.
  destruct s as [u l su [ns c ld r ss t a co ts]].
  destruct su as [su|], t as [t|]; run_auth;
    try (destruct (bool_decide (su = "")) eqn:Hsu; simpl);
    try (destruct (bool_decide (t = "")) eqn:Ht; simpl);
    try (destruct (JSON_parse su) as [v|] eqn:Hp; simpl);
    rewrite ?Hsu, ?Ht; simpl; rewrite ?Hp; simpl;
    repeat split; reflexivity.
Qed.

(** Unreadable saved data logs nobody in and is thrown away together with
    the token; with either entry missing nothing is read and nothing is
    removed. *)
Theorem restoreSession_corrupted
    (JSON_parse : string → option value) (s : Session) (saved tok : string) :
  savedUser s = Some saved → token (world s) = Some tok →
  saved ≠ "" → tok ≠ "" → JSON_parse saved = None →
  let s' := auth_exec (restoreSession JSON_parse) s in
  user s' = user s ∧ savedUser s' = None ∧ token (world s') = None
  ∧ authLoading s' = false.
Proof.
  destruct s as [u l su [ns c ld r ss t a co ts]]. simpl.
  intros -> -> Hs Ht Hp. run_auth.
  rewrite !bool_decide_eq_false_2 by assumption. simpl.
  rewrite Hp. simpl. repeat split; reflexivity.
Qed.

Lemma restoreSession_corrupted_witness :
  let s := mkSession VNull true (Some payload_truncated)
             (exec (set_token (Some "jwt")) initial_world) in
  JSON.parse payload_truncated = None
  ∧ savedUser (auth_exec (restoreSession JSON.parse) s) = None
  ∧ token (world (auth_exec (restoreSession JSON.parse) s)) = None.
Proof.
  cbv zeta. split; [vm_compute; reflexivity|].
  assert (H1 : payload_truncated ≠ "") by (vm_compute; discriminate).
  assert (H2 : "jwt" ≠ "") by discriminate.
  assert (H3 : JSON.parse payload_truncated = None) by (vm_compute; reflexivity).
  pose proof (restoreSession_corrupted JSON.parse
                (mkSession VNull true (Some payload_truncated)
                   (exec (set_token (Some "jwt")) initial_world))
                payload_truncated "jwt" eq_refl eq_refl H1 H2 H3)
    as (_ & Hs & Ht & _).
  split; [exact Hs|exact Ht].
Defined.

(** What a login stores is what the mount effect reads: after an accepted
    login and a page load the user is the one the login set, provided the
    platform's parser reads back what its serialiser wrote for that user
    (a non-empty text) and the token is not empty. *)
Theorem login_survives_page_load
    (JSON_parse : string → option value) (JSON_stringify : value → string)
    (s : Session) (data : LoginData) (email password : string) :
  JSON_parse (JSON_stringify (userData_of data)) = Some (userData_of data) →
  JSON_stringify (userData_of data) ≠ "" →
  login_token data ≠ "" →
  let s1 := auth_exec (login JSON_stringify (Accepted data) email password) s in
  let s2 := auth_exec (restoreSession JSON_parse) (page_load s1) in
  user s2 = userData_of data
  ∧ user s2 = user s1
  ∧ authLoading s2 = false
  ∧ token (world s2) = Some (login_token data)
  ∧ savedUser s2 = savedUser s1.
Proof.
  intros Hp Hs Ht. destruct s as [u l su w]. unfold page_load. run_auth.
  rewrite !bool_decide_eq_false_2 by assumption. simpl.
  rewrite Hp. simpl. repeat split; reflexivity.
Qed.

Lemma login_survives_page_load_witness :
  let s1 := auth_exec (login JSON_write.stringify (Accepted alice) "alice@example.com" "pw")
              initial_session in
  let s2 := auth_exec (restoreSession JSON.parse) (page_load s1) in
  JSON.parse (JSON_write.stringify (userData_of alice)) = Some (userData_of alice)
  ∧ user s2 = userData_of alice.
Proof.
  cbv zeta.
  assert (H1 : JSON.parse (JSON_write.stringify (userData_of alice))
               = Some (userData_of alice)) by (vm_compute; reflexivity).
  assert (H2 : JSON_write.stringify (userData_of alice) ≠ "")
    by (vm_compute; discriminate).
  assert (H3 : login_token alice ≠ "") by discriminate.
  split; [exact H1|].
  apply (login_survives_page_load JSON.parse JSON_write.stringify initial_session
           alice "alice@example.com" "pw" H1 H2 H3).
Defined.

(** * Routes and navigation *)

Lemma role_is_field (r : string) (u : value) :
  role_is r u = true →
  ∃ ms, u = VObj ms ∧ member "role" ms = Some (VStr r).
Proof.
  unfold role_is. destruct u as [| | | | |ms]; simpl; try discriminate.
  intros H. exists ms. split; [reflexivity|].
  destruct (member "role" ms) as [[| | |s| |]|]; try discriminate.
  apply bool_decide_eq_true_1 in H. subst. reflexivity.
Qed.

(** The guard lets its children through exactly when the session has
    been looked up, a user is there and, if the route names roles, the
    user's role is one of them. *)
Theorem ProtectedRoute_lets_through
    (u : value) (loading : bool) (roles : list string) (component : string) :
  ProtectedRoute u loading roles (Page component) = Page component
  ↔ loading = false ∧ truthy u = true
    ∧ (roles = [] ∨ includes roles (field "role" u) = true).
Proof.
  unfold ProtectedRoute. destruct loading; [split; [discriminate|intros (? & _); discriminate]|].
  destruct (truthy u); simpl; [|split; [discriminate|intros (_ & ? & _); discriminate]].
  destruct roles as [|r roles]; simpl.
  - split; auto.
  - destruct (includes (r :: roles) (field "role" u)); simpl.
    + split; auto.
    + split; [discriminate|]. intros (_ & _ & [?|?]); discriminate.
Qed.

Lemma ProtectedRoute_lets_through_witness :
  ProtectedRoute (userData_of alice) false ["EMPLOYEE"; "MANAGER"] (Page "EmployeeGoalsPage")
  = Page "EmployeeGoalsPage".
Proof.
  apply (ProtectedRoute_lets_through (userData_of alice) false
           ["EMPLOYEE"; "MANAGER"] "EmployeeGoalsPage").
  split; [reflexivity|]. split; [reflexivity|]. right. vm_compute. reflexivity.
Defined.

(** Every link the sidebar shows to an administrator, a manager or an
    employee, the items of the menu and the link to the profile, leads to
    a page: a route matches it and the guard of that route lets the user
    through. *)
Theorem sidebar_links_open (u : value) :
  isAdmin u || isManager u || isEmployee u = true →
  Forall (λ item, ∃ component, App u false item.2 = Page component) (sidebar_links u).
Proof.
  intros H.
  assert (Hr : ∃ r ms, u = VObj ms ∧ member "role" ms = Some (VStr r)
                       ∧ (r = "ADMIN" ∨ r = "MANAGER" ∨ r = "EMPLOYEE")).
  { apply orb_prop in H as [H|H]; [apply orb_prop in H as [H|H]|];
      apply role_is_field in H as (ms & -> & Hm); eauto 8. }
  destruct Hr as (r & ms & -> & Hm & Hcases).
  unfold sidebar_links, navItems, isAdmin, isManager, role_is, field. rewrite Hm.
  destruct Hcases as [-> | [-> | ->]]; simpl;
    repeat (apply Forall_cons; split;
            [unfold App, protected_routes, ProtectedRoute, SmartDashboard,
               SmartReviews, isAdmin, isManager, role_is, field;
             simpl; rewrite ?Hm; simpl; eexists; reflexivity|]);
    apply Forall_nil; exact I.
Qed.

Lemma sidebar_links_open_witness :
  isAdmin (userData_of alice) || isManager (userData_of alice)
    || isEmployee (userData_of alice) = true
  ∧ Forall (λ item, ∃ component, App (userData_of alice) false item.2 = Page component)
      (sidebar_links (userData_of alice)).
Proof.
  split; [reflexivity|].
  apply (sidebar_links_open (userData_of alice)). reflexivity.
Defined.

(** A user with another role gets the employee menu, two links of which
    its guards send back to the dashboard. *)
Example sidebar_links_other_role :
  let u := VObj [("role", VStr "HR")] in
  navItems u = EMPLOYEE_NAV
  ∧ App u false "/goals" = Navigate "/dashboard"
  ∧ App u false "/feedback" = Navigate "/dashboard".
Proof. vm_compute. repeat split; reflexivity. Qed.

Lemma includes_single (r : string) (u : value) :
  includes [r] (field "role" u) = true → role_is r u = true.
Proof.
  unfold includes, role_is.
  destruct (field "role" u) as [[| | |s| |]|]; try discriminate.
  intros H. apply bool_decide_eq_true_1 in H.
  apply list_elem_of_singleton in H as ->.
  apply bool_decide_eq_true_2. reflexivity.
Qed.

Ltac not_listed H :=
  exfalso;
  repeat (apply elem_of_cons in H as [H|H]; [discriminate H|]);
  inversion H.

Ltac guarded_case H :=
  right; unfold ProtectedRoute in H;
  match type of H with context [if ?l then Spinner else _] => destruct l end;
  [discriminate H|];
  match type of H with context [truthy ?u] => destruct (truthy u) end;
  [|discriminate H];
  simpl in H;
  repeat match type of H with
    | context [includes ?rs ?x] =>
        let E := fresh "Hinc" in destruct (includes rs x) eqn:E; simpl in H;
        [|discriminate H]
    end;
  unfold SmartDashboard, SmartReviews in H;
  repeat match type of H with
    | context [if ?b then _ else _] =>
        let E := fresh "Hrole" in destruct b eqn:E
    end;
  injection H as <-;
  (split; [reflexivity|]; split; [reflexivity|]; split;
   intros Hin;
   first [ assumption
         | apply includes_single; assumption
         | not_listed Hin ]).

(** No page but the login page is shown while the session is being looked
    up or when nobody is logged in, whatever the pathname and however it
    is written (case of the letters, slashes at the end); the pages of
    [pages/admin] are shown to administrators only and the pages of
    [pages/manager] to managers only. *)
Theorem pages_are_guarded (u : value) (loading : bool) (path component : string) :
  App u loading path = Page component →
  component = "LoginPage"
  ∨ (loading = false ∧ truthy u = true
     ∧ (component ∈ admin_pages → isAdmin u = true)
     ∧ (component ∈ manager_pages → isManager u = true)).
Proof.
  unfold App, protected_routes, admin_pages, manager_pages, isAdmin, isManager.
  cbn [route_for]. unfold matches.
  repeat case_bool_decide; intros Hpage; try discriminate Hpage;
    first [left; congruence | guarded_case Hpage].
Qed.

Lemma pages_are_guarded_witness :
  App (userData_of alice) false "/team-goals" = Page "TeamGoalsPage"
  ∧ ("TeamGoalsPage" = "LoginPage"
     ∨ (false = false ∧ truthy (userData_of alice) = true
        ∧ ("TeamGoalsPage" ∈ admin_pages → isAdmin (userData_of alice) = true)
        ∧ ("TeamGoalsPage" ∈ manager_pages → isManager (userData_of alice) = true))).
Proof.
  split; [reflexivity|].
  apply (pages_are_guarded (userData_of alice) false "/team-goals" "TeamGoalsPage").
  reflexivity.
Defined.

(** The router's matching on samples: the case of the letters and a
    slash at the end make no difference, and the guards apply all the
    same. *)
Example router_matching_samples :
  let admin := VObj [("role", VStr "ADMIN")] in
  App admin false "/USERS" = Page "AdminUsersPage"
  ∧ App admin false "/users/" = Page "AdminUsersPage"
  ∧ App VNull false "/Login" = Page "LoginPage"
  ∧ App VNull false "/USERS" = Navigate "/login"
  ∧ App (userData_of alice) false "/Users/" = Navigate "/dashboard"
  ∧ App admin false "/users/new" = Navigate "/dashboard".
Proof. vm_compute. repeat split; reflexivity. Qed.

(** * Pagination *)

Lemma button_page_offset (cur total i : Z) :
  button_page cur total i = (button_page cur total 0 + i)%Z.
Proof.
  unfold button_page.
  destruct (total >? 5)%Z; [|lia].
  destruct (cur <? 3)%Z; [lia|].
  destruct (cur >? total - 3)%Z; lia.
Qed.

Lemma button_page_first (cur total : Z) :
  (0 ≤ cur < total)%Z →
  (0 ≤ button_page cur total 0
   ∧ button_page cur total 0 + Z.min total 5 ≤ total
   ∧ button_page cur total 0 ≤ cur < button_page cur total 0 + Z.min total 5)%Z.
Proof.
  intros H. unfold button_page. rewrite !Z.gtb_ltb.
  destruct (Z.ltb_spec 5 total); [|lia].
  destruct (Z.ltb_spec cur 3); [lia|].
  destruct (Z.ltb_spec (total - 3) cur); lia.
Qed.

(** For a current page within [0, totalPages): a single page shows no
    control; with more pages there is a control, its numbered buttons are
    [min(totalPages, 5)] consecutive pages, all of them existing pages,
    the current page among them, and no arrow or button that is enabled
    asks for a page outside [0, totalPages). *)
Theorem Pagination_window (cur total : Z) :
  (0 ≤ cur < total)%Z →
  (total = 1 → Pagination cur total = None)
  ∧ (total ≠ 1 →
     ∃ (v : PaginationView) (first : Z),
       Pagination cur total = Some v
       ∧ buttons v = seqZ first (Z.min total 5)
       ∧ (0 ≤ first ∧ first + Z.min total 5 ≤ total)%Z
       ∧ cur ∈ buttons v
       ∧ Forall (λ p, (0 ≤ p < total)%Z) (requests cur v)).
Proof.
  intros H. unfold Pagination. split.
  - intros ->. reflexivity.
  - intros Hne. destruct (Z.leb_spec total 1); [lia|].
    destruct (button_page_first cur total H) as (Hlo & Hhi & Hcur).
    assert (Hb : button_page cur total <$> seqZ 0 (Z.min total 5)
                 = seqZ (button_page cur total 0) (Z.min total 5)).
    { replace (seqZ (button_page cur total 0) (Z.min total 5))
        with (Z.add (button_page cur total 0) <$> seqZ 0 (Z.min total 5))
        by (rewrite fmap_add_seqZ, Z.add_0_r; reflexivity).
      apply list_fmap_ext. intros _ i _. apply button_page_offset. }
    eexists. exists (button_page cur total 0).
    split; [reflexivity|]. unfold requests. simpl. rewrite Hb.
    split; [reflexivity|]. split; [lia|]. split; [apply elem_of_seqZ; lia|].
    apply Forall_app. split; [|apply Forall_app; split].
    + destruct (Z.eqb_spec cur 0); [apply Forall_nil; exact I|].
      apply Forall_singleton. lia.
    + apply list.Forall_forall. intros p Hp. apply elem_of_seqZ in Hp. lia.
    + rewrite Z.geb_leb.
      destruct (Z.leb_spec (total - 1) cur); [apply Forall_nil; exact I|].
      apply Forall_singleton. lia.
Qed.

Lemma Pagination_window_witness :
  (0 ≤ 0 < 1)%Z ∧ Pagination 0 1 = None
  ∧ (0 ≤ 7 < 10)%Z
  ∧ ∃ (v : PaginationView) (first : Z),
      Pagination 7 10 = Some v
      ∧ buttons v = seqZ first (Z.min 10 5)
      ∧ (0 ≤ first ∧ first + Z.min 10 5 ≤ 10)%Z
      ∧ 7 ∈ buttons v
      ∧ Forall (λ p, (0 ≤ p < 10)%Z) (requests 7 v).
Proof.
  assert (H1 : (0 ≤ 0 < 1)%Z) by lia.
  assert (H2 : (0 ≤ 7 < 10)%Z) by lia.
  split; [exact H1|]. split; [apply (Pagination_window 0 1 H1); reflexivity|].
  split; [exact H2|]. apply (Pagination_window 7 10 H2). discriminate.
Defined.

(** The three shapes of the window: at the start, in the middle, at the
    end. *)
Example Pagination_samples :
  (buttons <$> Pagination 1 10) = Some [0; 1; 2; 3; 4]
  ∧ (buttons <$> Pagination 5 10) = Some [3; 4; 5; 6; 7]
  ∧ (buttons <$> Pagination 9 10) = Some [5; 6; 7; 8; 9]
  ∧ (buttons <$> Pagination 2 3) = Some [0; 1; 2]
  ∧ Pagination 0 1 = None.
Proof. vm_compute. repeat split; reflexivity. Qed.

(** * The session as a whole *)

Lemma owns_same_stream (w w' : World) :
  sources w' = sources w → eventSourceRef w' = eventSourceRef w →
  handle_owns_stream w → handle_owns_stream w'.
Proof.
  unfold handle_owns_stream, open_handles. intros -> ->. auto.
Qed.

Lemma user_changed_unfold (u : value) (w : World) :
  exec (sessionCleanup;; sessionEffect u) w
  = exec (sessionEffect u) (exec stopSSEStream w).
Proof.
  unfold sessionCleanup, exec. unfold mbind at 1, M_bind at 1.
  rewrite stopSSEStream_returns. reflexivity.
Qed.

Lemma session_step_owns (w : World) (ev : session_event) :
  handle_owns_stream w → handle_owns_stream (exec (session_step ev) w).
Proof.
  intros H. destruct ev as [u|backend|ev|err|t]; simpl.
  - rewrite user_changed_unfold.
    pose proof (stream_step_owns w Stop H) as H1. simpl in H1.
    generalize dependent (exec stopSSEStream w). intros w1 H1.
    destruct (truthy u) eqn:Hu.
    + assert (He : exec (sessionEffect u) w1
                   = exec startSSEStream (exec (setLoading true) w1)).
      { unfold sessionEffect, loadNotifications_start. rewrite Hu. reflexivity. }
      rewrite He. apply (stream_step_owns _ Start).
      apply (owns_same_stream w1); [reflexivity|reflexivity|exact H1].
    + pose proof (stream_step_owns w1 Stop H1) as H2. simpl in H2.
      unfold exec at 1. rewrite (sessionEffect_falsy w1 u Hu).
      apply (owns_same_stream (exec stopSSEStream w1)); [reflexivity|reflexivity|exact H2].
  - apply (owns_same_stream w); [| |exact H];
      unfold loadNotifications_settle; destruct backend as [data|e]; run_monad;
      try reflexivity; destruct (api.unauthorized e); reflexivity.
  - destruct (page_step_stream ev w) as (Hs & Hr).
    apply (owns_same_stream w); assumption.
  - apply (owns_same_stream w); [| |exact H];
      unfold stream_error, notificationService.eventSource_onerror; run_monad;
      reflexivity.
  - exact H.
Qed.

(** Through a whole session, whatever the order of user changes, settled
    fetches, clicks, arrivals, stream errors and token changes, the open
    connections are exactly the one behind the stored handle, so never
    more than one. *)
Theorem session_single_connection
    (tok : option string) (sse : bool) (evs : list session_event) :
  let w := run_session evs (mounted tok sse) in
  open_handles w = option_list (eventSourceRef w)
  ∧ (length (open_sources w) ≤ 1)%nat.
Proof.
  cbv zeta.
  assert (Hown : handle_owns_stream (run_session evs (mounted tok sse))).
  { assert (H0 : handle_owns_stream (mounted tok sse)) by reflexivity.
    generalize dependent (mounted tok sse).
    induction evs as [|ev evs IH]; intros w H0; [exact H0|].
    simpl. apply IH, session_step_owns, H0. }
  split; [exact Hown|apply owner_at_most_one, Hown].
Qed.

Lemma stop_then_loading (w : World) :
  let w0 := exec (setLoading true) (exec stopSSEStream w) in
  token w0 = token w ∧ sseAvailable w0 = sseAvailable w
  ∧ length (sources w0) = length (sources w)
  ∧ notifications w0 = notifications w
  ∧ loading w0 = true
  ∧ sources w0 = sources (exec stopSSEStream w)
  ∧ eventSourceRef w0 = eventSourceRef (exec stopSSEStream w).
Proof.
  run_monad. destruct (eventSourceRef w); simpl; repeat split; try reflexivity.
  apply length_alter.
Qed.

Lemma login_accepted_result
    (JSON_stringify : value → string) (s : Session) (data : LoginData)
    (email password : string) :
  auth_exec (login JSON_stringify (Accepted data) email password) s
  = mkSession (userData_of data) (authLoading s)
      (Some (JSON_stringify (userData_of data)))
      (exec (show_toast (ToastSuccess ("Welcome back, " +:+ name data +:+ "!")))
         (exec (set_token (Some (login_token data))) (world s))).
Proof. destruct s as [u l su w]. reflexivity. Qed.

(** After an accepted login the effect for the new user opens the stream
    with the token the login has just stored: one connection is open, on
    the stream URL that carries that token, the fetch is pending, and the
    collection is still what it was. *)
Theorem login_then_effect
    (JSON_stringify : value → string) (s : Session) (data : LoginData)
    (email password : string) :
  login_token data ≠ "" → sseAvailable (world s) = true →
  handle_owns_stream (world s) →
  let s1 := auth_exec (login JSON_stringify (Accepted data) email password) s in
  let w2 := exec (sessionCleanup;; sessionEffect (user s1)) (world s1) in
  open_handles w2 = [length (sources (world s))]
  ∧ sources w2 !! length (sources (world s))
    = Some (mkEventSource
              ("/api/v1/notifications/stream?token=" +:+ login_token data) false)
  ∧ loading w2 = true
  ∧ notifications w2 = notifications (world s).
Proof.
  intros Htok Hsse Hown. cbv zeta.
  rewrite login_accepted_result. simpl user. simpl world.
  set (w1 := exec (show_toast _) _).
  assert (Hw1 : token w1 = Some (login_token data) ∧ sseAvailable w1 = true
                ∧ sources w1 = sources (world s)
                ∧ eventSourceRef w1 = eventSourceRef (world s)
                ∧ notifications w1 = notifications (world s)).
  { rewrite <- Hsse. repeat split; reflexivity. }
  destruct Hw1 as (Ht1 & Ha1 & Hs & Hr & Hn1).
  assert (Hown1 : handle_owns_stream w1)
    by (apply (owns_same_stream (world s)); assumption).
  rewrite <- Hs, <- Hn1. clearbody w1. clear Hs Hr Hn1 Hown Hsse.
  rewrite user_changed_unfold.
  assert (He : exec (sessionEffect (userData_of data)) (exec stopSSEStream w1)
               = exec startSSEStream (exec (setLoading true) (exec stopSSEStream w1)))
    by reflexivity.
  rewrite He. clear He.
  destruct (stopSSEStream_closes w1 Hown1) as (Ho & Hr).
  pose proof (stream_step_owns w1 Stop Hown1) as Hown2. simpl in Hown2.
  destruct (stop_then_loading w1) as (Ht0 & Ha0 & Hl0 & Hn0 & Hld0 & Hs0 & Hr0).
  set (w0 := exec (setLoading true) (exec stopSSEStream w1)) in *.
  assert (Hown0 : handle_owns_stream w0)
    by (apply (owns_same_stream (exec stopSSEStream w1)); assumption).
  rewrite Ht1 in Ht0. rewrite Ha1 in Ha0.
  destruct (startSSEStream_opens_at w0 (login_token data) Ht0 Htok Ha0)
    as (Hr' & Hlen & Hlast & Hn' & _).
  destruct (stream_step_store w0 Start) as (_ & _ & _ & Hld' & _).
  simpl in Hld'.
  pose proof (stream_step_owns w0 Start Hown0) as Hown'. simpl in Hown'.
  unfold handle_owns_stream in Hown'. rewrite Hr' in Hown'. simpl in Hown'.
  rewrite <- Hl0. repeat split.
  - exact Hown'.
  - exact Hlast.
  - rewrite Hld'. exact Hld0.
  - rewrite Hn'. exact Hn0.
Qed.

Lemma login_then_effect_witness :
  let s := mkSession VNull false None (mounted None true) in
  let s1 := auth_exec (login JSON_write.stringify (Accepted alice) "alice@example.com" "pw") s in
  let w2 := exec (sessionCleanup;; sessionEffect (user s1)) (world s1) in
  login_token alice ≠ "" ∧ handle_owns_stream (world s)
  ∧ open_handles w2 = [0%nat]
  ∧ sources w2 !! 0%nat
    = Some (mkEventSource "/api/v1/notifications/stream?token=jwt" false).
Proof.
  cbv zeta.
  assert (H1 : login_token alice ≠ "") by discriminate.
  assert (H2 : handle_owns_stream (mounted None true)) by reflexivity.
  pose proof (login_then_effect JSON_write.stringify
                (mkSession VNull false None (mounted None true)) alice
                "alice@example.com" "pw" H1 eq_refl H2) as (Ho & Hs & _).
  split; [exact H1|]. split; [exact H2|]. split; [exact Ho|exact Hs].
Defined.
